(** * Plot_demo: the sample sales-data generator (sample_data_generator.py)

    A shallow embedding of the script: the month enumerator [get_months]
    over Python's naive [datetime], the row synthesizer over an abstract
    random source, and the CSV serializer. *)

From Stdlib Require Import ZArith QArith Qround Qpower Qabs Qreduction.
From Stdlib Require Import List String Ascii DecimalString DecimalPos DecimalZ.
From Stdlib Require Import Bool Lia Lqa.
Import ListNotations.
Open Scope Z_scope.

(** ** Exceptions and results *)

(** The exceptions the modelled library calls can raise. *)
Inductive exn : Type :=
| ValueError
| OverflowError.

(** The outcome of a Python expression: a value, or a raised exception. *)
Inductive result (A : Type) : Type :=
| Returned (a : A)
| Raised (e : exn).

Arguments Returned {A} a.
Arguments Raised {A} e.

Definition bind {A B : Type} (r : result A) (k : A -> result B) : result B :=
  match r with
  | Returned a => k a
  | Raised e => Raised e
  end.

Notation "x <- c1 ;; c2" := (bind c1 (fun x => c2))
  (at level 61, c1 at next level, right associativity).

(** ** Decimal text *)

(** [str(n)] of an int: its decimal digits, a minus sign before a
    negative one. *)
Definition str_int (n : Z) : string := NilZero.string_of_int (Z.to_int n).

(** The decimal digit of [n mod 10]. *)
Definition digit_char (n : Z) : ascii :=
  ascii_of_nat (48 + Z.to_nat (n mod 10)).

(** [n] in decimal on exactly [w] digits, zero-padded: C's [%0wd] for
    [0 <= n < 10^w], the range of every field formatted below. *)
Fixpoint zero_padded (w : nat) (n : Z) : string :=
  match w with
  | O => EmptyString
  | S w' => zero_padded w' (n / 10) ++ String (digit_char n) EmptyString
  end.

(** ** Python's datetime module: the operations the script calls *)

Module PyDatetime.

Definition MINYEAR : Z := 1.
Definition MAXYEAR : Z := 9999.

(** [_DAYS_IN_MONTH], indexed from 1; [-1] is the list's placeholder. *)
Definition DAYS_IN_MONTH (month : Z) : Z :=
  match month with
  | 1 => 31 | 2 => 28 | 3 => 31 | 4 => 30 | 5 => 31 | 6 => 30
  | 7 => 31 | 8 => 31 | 9 => 30 | 10 => 31 | 11 => 30 | 12 => 31
  | _ => -1
  end.

(** [_DAYS_BEFORE_MONTH]: the running sums of [_DAYS_IN_MONTH]. *)
Definition DAYS_BEFORE_MONTH (month : Z) : Z :=
  match month with
  | 1 => 0 | 2 => 31 | 3 => 59 | 4 => 90 | 5 => 120 | 6 => 151
  | 7 => 181 | 8 => 212 | 9 => 243 | 10 => 273 | 11 => 304 | 12 => 334
  | _ => -1
  end.

(** [year % 4 == 0 and (year % 100 != 0 or year % 400 == 0)] *)
Definition is_leap (year : Z) : bool :=
  (year mod 4 =? 0) && (negb (year mod 100 =? 0) || (year mod 400 =? 0)).

Definition days_before_year (year : Z) : Z :=
  let y := year - 1 in
  y * 365 + y / 4 - y / 100 + y / 400.

Definition days_in_month (year month : Z) : Z :=
  if (month =? 2) && is_leap year then 29 else DAYS_IN_MONTH month.

Definition days_before_month (year month : Z) : Z :=
  DAYS_BEFORE_MONTH month + (if (2 <? month) && is_leap year then 1 else 0).

(** [_ymd2ord]: the proleptic Gregorian ordinal, 0001-01-01 being day 1. *)
Definition ymd2ord (year month day : Z) : Z :=
  days_before_year year + days_before_month year month + day.

Definition DI400Y : Z := days_before_year 401.
Definition DI100Y : Z := days_before_year 101.
Definition DI4Y : Z := days_before_year 5.

(** [_ord2ymd]: the inverse of [ymd2ord], by 400-, 100-, 4- and 1-year
    cycles and then the month estimate [(n + 50) >> 5]. *)
Definition ord2ymd (n : Z) : Z * Z * Z :=
  let n := n - 1 in
  let n400 := n / DI400Y in
  let n := n mod DI400Y in
  let year := n400 * 400 + 1 in
  let n100 := n / DI100Y in
  let n := n mod DI100Y in
  let n4 := n / DI4Y in
  let n := n mod DI4Y in
  let n1 := n / 365 in
  let n := n mod 365 in
  let year := year + n100 * 100 + n4 * 4 + n1 in
  if (n1 =? 4) || (n100 =? 4) then (year - 1, 12, 31)
  else
    let leapyear := (n1 =? 3) && (negb (n4 =? 24) || (n100 =? 3)) in
    let month := Z.shiftr (n + 50) 5 in
    let preceding :=
      DAYS_BEFORE_MONTH month + (if (2 <? month) && leapyear then 1 else 0) in
    if n <? preceding then
      let month := month - 1 in
      let preceding :=
        preceding
        - (DAYS_IN_MONTH month + (if (month =? 2) && leapyear then 1 else 0)) in
      (year, month, n - preceding + 1)
    else (year, month, n - preceding + 1).

(** [date.max.toordinal()], the ordinal of 9999-12-31. *)
Definition MAXORDINAL : Z := ymd2ord MAXYEAR 12 31.

(** A naive [datetime] (no tzinfo): its seven fields. *)
Record datetime : Type := mkdatetime {
  year : Z;
  month : Z;
  day : Z;
  hour : Z;
  minute : Z;
  second : Z;
  microsecond : Z
}.

(** [_check_date_fields] and [_check_time_fields]: what every constructed
    datetime satisfies. *)
Definition check_date_fields (y m d : Z) : bool :=
  (MINYEAR <=? y) && (y <=? MAXYEAR) && (1 <=? m) && (m <=? 12)
  && (1 <=? d) && (d <=? days_in_month y m).

Definition check_time_fields (h mi s us : Z) : bool :=
  (0 <=? h) && (h <=? 23) && (0 <=? mi) && (mi <=? 59)
  && (0 <=? s) && (s <=? 59) && (0 <=? us) && (us <=? 999999).

Definition valid (d : datetime) : bool :=
  check_date_fields (year d) (month d) (day d)
  && check_time_fields (hour d) (minute d) (second d) (microsecond d).

(** [datetime(year, month, day, hour, minute, second, microsecond)] *)
Definition datetime_new (y m d h mi s us : Z) : result datetime :=
  if check_date_fields y m d && check_time_fields h mi s us
  then Returned (mkdatetime y m d h mi s us)
  else Raised ValueError.

(** [datetime(year, month, day)] once its fields have passed the checks:
    the time is midnight. *)
Definition at_midnight (y m d : Z) : datetime := mkdatetime y m d 0 0 0 0.

(** [self.replace(day=d)]: the constructor run again on the new fields. *)
Definition replace_day (self : datetime) (d : Z) : result datetime :=
  datetime_new (year self) (month self) d
    (hour self) (minute self) (second self) (microsecond self).

(** A [timedelta], normalised: [0 <= seconds < 86400] and
    [0 <= microseconds < 1000000]. *)
Record timedelta : Type := mktimedelta {
  td_days : Z;
  td_seconds : Z;
  td_microseconds : Z
}.

(** [timedelta(days, seconds, microseconds)], carrying into the larger
    units as the constructor does. *)
Definition timedelta_new (days seconds microseconds : Z) : timedelta :=
  let seconds := seconds + microseconds / 1000000 in
  let microseconds := microseconds mod 1000000 in
  let days := days + seconds / 86400 in
  let seconds := seconds mod 86400 in
  mktimedelta days seconds microseconds.

Definition timedelta_add (a b : timedelta) : timedelta :=
  timedelta_new (td_days a + td_days b) (td_seconds a + td_seconds b)
    (td_microseconds a + td_microseconds b).

Definition toordinal (self : datetime) : Z :=
  ymd2ord (year self) (month self) (day self).

(** [datetime.__add__(self, other)]: the datetime as a timedelta since
    ordinal 0, plus [other], split back into date and time; out of
    [1 .. MAXORDINAL] it raises OverflowError. *)
Definition datetime_add (self : datetime) (other : timedelta) : result datetime :=
  let delta :=
    timedelta_add
      (timedelta_new (toordinal self)
         (hour self * 3600 + minute self * 60 + second self)
         (microsecond self))
      other in
  let hour := td_seconds delta / 3600 in
  let rem := td_seconds delta mod 3600 in
  let minute := rem / 60 in
  let second := rem mod 60 in
  if (0 <? td_days delta) && (td_days delta <=? MAXORDINAL) then
    let '(y, m, d) := ord2ymd (td_days delta) in
    Returned (mkdatetime y m d hour minute second (td_microseconds delta))
  else Raised OverflowError.

(** Comparison of naive datetimes: the field tuples, lexicographically. *)
Fixpoint cmp_tuple (a b : list Z) : comparison :=
  match a, b with
  | [], [] => Eq
  | [], _ :: _ => Lt
  | _ :: _, [] => Gt
  | x :: a', y :: b' =>
      match x ?= y with
      | Eq => cmp_tuple a' b'
      | c => c
      end
  end.

Definition fields (d : datetime) : list Z :=
  [year d; month d; day d; hour d; minute d; second d; microsecond d].

Definition cmp (a b : datetime) : comparison :=
  cmp_tuple (fields a) (fields b).

(** [a < b] and [a >= b] *)
Definition ltb (a b : datetime) : bool :=
  match cmp a b with Lt => true | _ => false end.

Definition geb (a b : datetime) : bool :=
  match cmp a b with Lt => false | _ => true end.

(** [strftime] hands the format to the platform's C library.  There
    [%m %d %H %M %S] are two digits everywhere, and [%Y] is the year in
    decimal: four digits from year 1000 on, and below that padded with
    zeros to four digits or not, by platform. *)
Class CLibrary : Type := {
  format_year : Z -> string;
  format_year_4_digits :
    forall y, 1000 <= y <= 9999 -> format_year y = zero_padded 4 y
}.

(** [self.strftime(fmt)] for the numeric directives [%Y %m %d %H %M %S]
    and [%%]; any other character is copied. *)
Fixpoint strftime {CL : CLibrary} (self : datetime) (fmt : string) : string :=
  match fmt with
  | EmptyString => EmptyString
  | String "%" (String c rest) =>
      let field :=
        match c with
        | "Y" => format_year (year self)
        | "m" => zero_padded 2 (month self)
        | "d" => zero_padded 2 (day self)
        | "H" => zero_padded 2 (hour self)
        | "M" => zero_padded 2 (minute self)
        | "S" => zero_padded 2 (second self)
        | "%" => String "%" EmptyString
        | _ => String "%" (String c EmptyString)
        end%char in
      field ++ strftime self rest
  | String c rest => String c (strftime self rest)
  end%string.

End PyDatetime.

(** ** The script *)

Import PyDatetime.

(** The loop body's two assignments (lines 17-18): jump to day 28, add
    four days, truncate to day 1. *)
Definition advance (current : datetime) : result datetime :=
  current <- replace_day current 28 ;;
  current <- datetime_add current (timedelta_new 4 0 0) ;;
  replace_day current 1.

Section MonthEnumerator.

Context {CL : CLibrary}.

(** The [while] loop of [get_months], one unit of fuel per test of the
    loop condition; [None] when the fuel runs out first. *)
Fixpoint get_months_loop (fuel : nat) (current end_ : datetime)
    (months : list string) : option (result (list string)) :=
  match fuel with
  | O => None
  | S fuel' =>
      if ltb current end_ then
        let months := months ++ [strftime current "%m/%d/%Y"] in
        match advance current with
        | Returned current => get_months_loop fuel' current end_ months
        | Raised e => Some (Raised e)
        end
      else Some (Returned months)
  end.

(** Months are numbered from year 0: [month_index] of 0001-01 is 12. *)
Definition month_index (d : datetime) : Z := year d * 12 + (month d - 1).

Definition MAX_MONTH_INDEX : Z := MAXYEAR * 12 + 11.

(** Fuel for every run: one test per month from [start]'s to 9999-12. *)
Definition months_fuel (start : datetime) : nat :=
  Z.to_nat (MAX_MONTH_INDEX - month_index start + 1).

Definition get_months (start end_ : datetime) : option (result (list string)) :=
  get_months_loop (months_fuel start) start end_ [].

End MonthEnumerator.


(** ** Python's float: binary64 arithmetic on the rationals it denotes *)

Module PyFloat.

(** A finite double is the rational it stands for; an operation is the
    exact operation followed by [round_to_double].  Infinities and NaN are
    outside the model: every value of the script lies in [0, 25000]. *)
Definition float : Type := Q.

Definition pow2 (e : Z) : Q := (2 ^ e)%Q.
Definition pow10 (e : Z) : Q := (10 ^ e)%Q.

(** The nearest integer, ties to the even one. *)
Definition round_half_even (q : Q) : Z :=
  let f := Qfloor q in
  match (q - inject_Z f ?= 1 # 2)%Q with
  | Lt => f
  | Gt => f + 1
  | Eq => if Z.even f then f else f + 1
  end.

(** [floor (log2 q)] for [0 < q]. *)
Definition ilog2 (q : Q) : Z :=
  let l := Z.log2 (Qnum q) - Z.log2 (Zpos (Qden q)) in
  if Qle_bool (pow2 l) q then l else l - 1.

(** Round to nearest, ties to even, on 53 significant bits, the last bit
    worth at least [2^-1074] (below [2^-1022] doubles are subnormal). *)
Definition round_to_double (q : Q) : float :=
  if Qeq_bool q 0 then 0%Q
  else
    let e := Z.max (ilog2 (Qabs q) - 52) (-1074) in
    Qred (inject_Z (round_half_even (q / pow2 e)) * pow2 e).

(** [float(n)] of an int, [x + y], [x * y] on floats. *)
Definition of_int (n : Z) : float := round_to_double (inject_Z n).
Definition add (x y : float) : float := round_to_double (x + y).
Definition mul (x y : float) : float := round_to_double (x * y).

(** [round(x, ndigits)]: [x] rounded half-even to [ndigits] decimals as
    the exact number it is, then the double nearest to that decimal. *)
Definition round_ndigits (x : float) (ndigits : Z) : float :=
  round_to_double
    (inject_Z (round_half_even (x * pow10 ndigits)) / pow10 ndigits).

(** [floor (log10 q)] for [0 < q]: an estimate from [ilog2], adjusted. *)
Definition ilog10 (q : Q) : Z :=
  let k := ilog2 q * 1233 / 4096 in
  if Qle_bool (pow10 (k + 1)) q then k + 1
  else if Qle_bool (pow10 k) q then k
  else k - 1.

(** The integers next to [x * 10^(p - 1 - k)], the nearest first: the
    [p]-digit decimals around [x] when [k = ilog10 x]. *)
Definition candidates (x : Q) (k p : Z) : list Z :=
  let y := (x * pow10 (p - 1 - k))%Q in
  let n := round_half_even y in
  [n; if n =? Qfloor y then n + 1 else n - 1].

(** [n * 10^-(p - 1 - k)] reads back as [x]. *)
Definition round_trips (x : Q) (k p n : Z) : bool :=
  Qeq_bool (round_to_double (inject_Z n / pow10 (p - 1 - k))) x.

(** The shortest decimal that reads back as [x], the nearest to [x]
    among those: its digits as an integer, and their number [p]. *)
Fixpoint shortest (x : Q) (k : Z) (ps : list Z) : Z * Z :=
  match ps with
  | [] => (round_half_even (x * pow10 (16 - k)), 17)
  | p :: ps' =>
      match find (round_trips x k p) (candidates x k p) with
      | Some n => (n, p)
      | None => shortest x k ps'
      end
  end.

Definition precisions : list Z := map Z.of_nat (seq 1 17).

Fixpoint zeros (n : nat) : string :=
  match n with
  | O => EmptyString
  | S n' => String "0" (zeros n')
  end.

(** [s] without its trailing zeros, the first character kept. *)
Fixpoint strip_zeros (s : string) : string :=
  match s with
  | EmptyString => EmptyString
  | String c rest =>
      match strip_zeros rest with
      | EmptyString =>
          if (c =? "0")%char then EmptyString else String c EmptyString
      | rest' => String c rest'
      end
  end.

Definition strip_trailing_zeros (s : string) : string :=
  match s with
  | EmptyString => EmptyString
  | String c rest => String c (strip_zeros rest)
  end.

(** [repr(x)] of a float: the shortest digits that read back as [x],
    with an exponent when the decimal point would be far from them
    ([decpt <= -4] or [decpt > 16]), else positional with [.0] added to a
    whole number. *)
Definition float_repr (x : float) : string :=
  if Qeq_bool x 0 then "0.0"%string
  else
    let sign :=
      match (x ?= 0)%Q with Lt => "-"%string | _ => EmptyString end in
    let a := Qabs x in
    let k := ilog10 a in
    let '(n, p) := shortest a k precisions in
    let all := str_int n in
    let decpt := Z.of_nat (String.length all) - (p - 1 - k) in
    let digits := strip_trailing_zeros all in
    let nd := String.length digits in
    let body :=
      if (decpt <=? -4) || (16 <? decpt) then
        let e := decpt - 1 in
        (substring 0 1 digits
         ++ (if (1 <? nd)%nat then "." ++ substring 1 (nd - 1) digits
             else EmptyString)
         ++ "e" ++ (if (e <? 0)%Z then "-" else "+")
         ++ (if (Z.abs e <? 100)%Z then zero_padded 2 (Z.abs e)
             else str_int (Z.abs e)))%string
      else if decpt <=? 0 then
        ("0." ++ zeros (Z.to_nat (- decpt)) ++ digits)%string
      else if (Z.to_nat decpt <? nd)%nat then
        (substring 0 (Z.to_nat decpt) digits ++ "."
         ++ substring (Z.to_nat decpt) (nd - Z.to_nat decpt) digits)%string
      else
        (digits ++ zeros (Z.to_nat decpt - nd) ++ ".0")%string in
    (sign ++ body)%string.

End PyFloat.

(** ** Python's random module *)

(** The hidden generator behind [random.uniform] and [random.randint],
    by its two primitives: the 53 random bits of [random()], and
    [_randbelow(n)], a number below [n]. *)
Class RandomSource (G : Type) : Type := {
  genrand_res53 : G -> Z * G;
  randbelow : Z -> G -> Z * G;
  genrand_res53_range : forall g, 0 <= fst (genrand_res53 g) < 2 ^ 53;
  randbelow_range : forall n g, 0 < n -> 0 <= fst (randbelow n g) < n
}.

Module PyRandom.

Import PyFloat.

Section WithSource.

Context {G : Type} {RS : RandomSource G}.

(** A computation that draws from the generator and may raise. *)
Definition Rand (A : Type) : Type := G -> result (A * G).

Definition ret {A : Type} (a : A) : Rand A := fun g => Returned (a, g).

Definition rbind {A B : Type} (c : Rand A) (k : A -> Rand B) : Rand B :=
  fun g =>
    match c g with
    | Returned (a, g') => k a g'
    | Raised e => Raised e
    end.

(** [random()]: 53 random bits over [2^53], a float in [0.0, 1.0). *)
Definition random : Rand float :=
  fun g =>
    let '(k, g') := genrand_res53 g in
    Returned ((inject_Z k / inject_Z (2 ^ 53))%Q, g').

(** [uniform(a, b)] for ints [a], [b]: [a + (b - a) * self.random()]. *)
Definition uniform (a b : Z) : Rand float :=
  rbind random (fun u => ret (add (of_int a) (mul (of_int (b - a)) u))).

(** [randint(a, b)], that is [randrange(a, b + 1)]: ValueError on an
    empty range, else [a + self._randbelow(b + 1 - a)]. *)
Definition randint (a b : Z) : Rand Z :=
  fun g =>
    let width := b + 1 - a in
    if 0 <? width then
      let '(r, g') := randbelow width g in Returned (a + r, g')
    else Raised ValueError.

End WithSource.

End PyRandom.

Notation "x <~ c1 ;; c2" := (PyRandom.rbind c1 (fun x => c2))
  (at level 61, c1 at next level, right associativity).

(** ** The script, continued: rows and the CSV file *)

Import PyFloat PyRandom.

(** [products] (line 6): [f"Product {i+1}" for i in range(15)]. *)
Definition products : list string :=
  map (fun i => ("Product " ++ str_int (Z.of_nat i + 1))%string) (seq 0 15).

(** One row of [data]: [[month, product, unit_price, quantity, sales]]. *)
Record row : Type := mkrow {
  month_year : string;
  product_name : string;
  unit_price : float;
  quantity : Z;
  sales_amount : float
}.

Section Generator.

Context {G : Type} {RS : RandomSource G}.

(** The body of the inner loop (lines 27-30). *)
Definition make_row (month product : string) : Rand (G := G) row :=
  u <~ uniform 5 50 ;;
  let unit_price := round_ndigits u 2 in
  quantity <~ randint 50 500 ;;
  let sales := round_ndigits (mul unit_price (of_int quantity)) 2 in
  ret (mkrow month product unit_price quantity sales).

(** [for product in products: ... data.append(...)] *)
Fixpoint for_products (month : string) (products : list string)
    (data : list row) : Rand (G := G) (list row) :=
  match products with
  | [] => ret data
  | product :: rest =>
      r <~ make_row month product ;;
      for_products month rest (data ++ [r])
  end.

(** [for month in months: ...] *)
Fixpoint for_months (months products : list string) (data : list row)
    : Rand (G := G) (list row) :=
  match months with
  | [] => ret data
  | month :: rest =>
      data <~ for_products month products data ;;
      for_months rest products data
  end.

(** Lines 24-30: [data] from [months] and the 15 [products]. *)
Definition generate_data (months : list string) : Rand (G := G) (list row) :=
  for_months months products [].

End Generator.

(** *** csv.writer, excel dialect *)

Module PyCsv.

Definition comma : ascii := ","%char.
Definition quotechar : ascii := ascii_of_nat 34.
Definition CR : ascii := ascii_of_nat 13.
Definition LF : ascii := ascii_of_nat 10.

(** The line terminator, carriage return and line feed. *)
Definition lineterminator : string := String CR (String LF EmptyString).

(** A value handed to [writerow]. *)
Inductive cell : Type :=
| CellStr (s : string)
| CellInt (n : Z)
| CellFloat (x : float).

(** A string goes out as it is, an int by [str], a float by [repr]. *)
Definition cell_text (c : cell) : string :=
  match c with
  | CellStr s => s
  | CellInt n => str_int n
  | CellFloat x => float_repr x
  end.

(** The characters that make QUOTE_MINIMAL quote a field. *)
Definition special (c : ascii) : bool :=
  (c =? comma)%char || (c =? quotechar)%char
  || (c =? CR)%char || (c =? LF)%char.

Fixpoint needs_quotes (s : string) : bool :=
  match s with
  | EmptyString => false
  | String c rest => special c || needs_quotes rest
  end.

(** Every quote character doubled. *)
Fixpoint double_quotes (s : string) : string :=
  match s with
  | EmptyString => EmptyString
  | String c rest =>
      if (c =? quotechar)%char
      then String c (String c (double_quotes rest))
      else String c (double_quotes rest)
  end.

Definition field_text (s : string) : string :=
  if needs_quotes s
  then String quotechar (double_quotes s ++ String quotechar EmptyString)
  else s.

Fixpoint join (sep : ascii) (fields : list string) : string :=
  match fields with
  | [] => EmptyString
  | [f] => f
  | f :: rest => (f ++ String sep (join sep rest))%string
  end.

(** The record [writerow] writes, without its terminator. *)
Definition record_text (cells : list cell) : string :=
  join comma (map (fun c => field_text (cell_text c)) cells).

Definition writerow (cells : list cell) : string :=
  (record_text cells ++ lineterminator)%string.

Definition writerows (rows : list (list cell)) : string :=
  String.concat EmptyString (map writerow rows).

End PyCsv.

Import PyCsv.

Definition header : list cell :=
  [CellStr "month/year"; CellStr "product name"; CellStr "unit price";
   CellStr "quantity"; CellStr "sales amount"].

Definition row_cells (r : row) : list cell :=
  [CellStr (month_year r); CellStr (product_name r);
   CellFloat (unit_price r); CellInt (quantity r);
   CellFloat (sales_amount r)].

(** Lines 33-36: what the script writes to [sales_data2.csv]. *)
Definition csv_text (data : list row) : string :=
  (writerow header ++ writerows (map row_cells data))%string.

(** The script's date range (lines 7-8). *)
Definition start_date : datetime := at_midnight 2022 1 1.
Definition end_date : datetime := at_midnight 2025 1 1.

Section Script.

Context {CL : CLibrary} {G : Type} {RS : RandomSource G}.

(** The whole script from a generator state: the rows of [data] and the
    text of the file; [None] only if [get_months] ran out of fuel. *)
Definition script (g : G) : option (result (list row * string)) :=
  match get_months start_date end_date with
  | None => None
  | Some (Raised e) => Some (Raised e)
  | Some (Returned months) =>
      match generate_data months g with
      | Raised e => Some (Raised e)
      | Returned (data, _) => Some (Returned (data, csv_text data))
      end
  end.

End Script.

(** The lines of a text as a reader with universal newlines sees them:
    a line ends at CR LF, at a lone LF or at a lone CR. *)
Fixpoint lines_from (current text : string) : list string :=
  match text with
  | EmptyString =>
      match current with
      | EmptyString => []
      | _ => [current]
      end
  | String c rest =>
      if (c =? LF)%char then current :: lines_from EmptyString rest
      else if (c =? CR)%char then
        match rest with
        | String c' rest' =>
            if (c' =? LF)%char
            then current :: lines_from EmptyString rest'
            else current :: lines_from EmptyString rest
        | EmptyString => [current]
        end
      else lines_from (current ++ String c EmptyString) rest
  end.

Definition lines (text : string) : list string := lines_from EmptyString text.

(** A generator for examples: a 64-bit linear congruential step. *)
Definition lcg_next (g : Z) : Z :=
  (6364136223846793005 * g + 1442695040888963407) mod 2 ^ 64.

#[export] Instance lcg_source : RandomSource Z.
Proof.
  refine {| genrand_res53 := fun g => (g mod 2 ^ 53, lcg_next g);
            randbelow := fun n g => (g mod n, lcg_next g) |}.
  - intros g. cbn [fst]. apply Z.mod_pos_bound. reflexivity.
  - intros n g Hn. cbn [fst]. apply Z.mod_pos_bound. exact Hn.
Defined.

(** Two C libraries: one prints years on four digits, always, and stands
    for the platform where a statement names none; the other prints them
    in plain decimal. *)
#[export] Instance padded_years : CLibrary :=
  {| format_year := zero_padded 4;
     format_year_4_digits := fun y _ => eq_refl |}.

Definition four_digit_years : list Z :=
  map (fun n => 1000 + Z.of_nat n) (seq 0 (Z.to_nat 9000)).

Lemma str_int_four_digit_years :
  forallb (fun y => String.eqb (str_int y) (zero_padded 4 y))
    four_digit_years = true.
Proof. vm_compute. reflexivity. Qed.

Definition plain_years : CLibrary.
Proof.
  refine {| format_year := str_int |}.
  intros y Hy. apply String.eqb_eq.
  pose proof str_int_four_digit_years as H.
  rewrite forallb_forall in H. apply H.
  unfold four_digit_years.
  replace y with (1000 + Z.of_nat (Z.to_nat (y - 1000))) by lia.
  apply (in_map (fun n => 1000 + Z.of_nat n)). apply in_seq. lia.
Defined.

(** ** Vocabulary of the statements *)

(** *** Calendar *)

(** The month and day of the [n]-th day (from 0) of a year: the tail of
    [ord2ymd]. *)
Definition month_day_of_yday (leapyear : bool) (n : Z) : Z * Z :=
  let month := Z.shiftr (n + 50) 5 in
  let preceding :=
    DAYS_BEFORE_MONTH month + (if (2 <? month) && leapyear then 1 else 0) in
  if n <? preceding then
    let month := month - 1 in
    let preceding :=
      preceding
      - (DAYS_IN_MONTH month + (if (month =? 2) && leapyear then 1 else 0)) in
    (month, n - preceding + 1)
  else (month, n - preceding + 1).

(** [month_day_of_yday] finds day [d] of month [m] again ([d] within the
    month), and that day is within the year. *)
Definition month_day_ok (leapyear : bool) (m d : Z) : bool :=
  let dim := if (m =? 2) && leapyear then 29 else DAYS_IN_MONTH m in
  let dbm :=
    DAYS_BEFORE_MONTH m + (if (2 <? m) && leapyear then 1 else 0) in
  implb (d <=? dim)
    (let '(m', d') := month_day_of_yday leapyear (dbm + d - 1) in
     (m' =? m) && (d' =? d)
     && (dbm + d - 1 <? 365 + (if leapyear then 1 else 0))).

(** The year and month after [(y, m)]. *)
Definition next_year_month (y m : Z) : Z * Z :=
  if m =? 12 then (y + 1, 1) else (y, m + 1).

(** The first day of the month after [d]'s, at [d]'s time of day. *)
Definition first_of_next_month (d : datetime) : datetime :=
  let '(y', m') := next_year_month (year d) (month d) in
  mkdatetime y' m' 1 (hour d) (minute d) (second d) (microsecond d).

(** [d] is in December 9999. *)
Definition in_last_month (d : datetime) : bool :=
  (year d =? MAXYEAR) && (month d =? 12).

(** 9999-12-01 00:00:00, the start of the last month a datetime can
    hold. *)
Definition last_month_start : datetime := mkdatetime MAXYEAR 12 1 0 0 0 0.

(** One integer per datetime, in the order of the field tuples. *)
Definition key (d : datetime) : Z :=
  (((((year d * 13 + month d) * 32 + day d) * 24 + hour d) * 60 + minute d)
   * 60 + second d) * 1000000 + microsecond d.

(** *** Running dates and labels *)

(** The running date at the [i]-th test of the loop condition: [start]
    itself, then the first day of each following month at [start]'s time
    of day. *)
Definition running_date (start : datetime) (i : nat) : datetime :=
  match i with
  | O => start
  | S _ =>
      let mi := month_index start + Z.of_nat i in
      mkdatetime (mi / 12) (mi mod 12 + 1) 1
        (hour start) (minute start) (second start) (microsecond start)
  end.

(** The label appended for a running date. *)
Definition label {CL : CLibrary} (d : datetime) : string :=
  strftime d "%m/%d/%Y".

(** The characters [0] to [9]. *)
Definition is_digit (c : ascii) : bool :=
  (48 <=? nat_of_ascii c)%nat && (nat_of_ascii c <=? 57)%nat.

(** [MM/DD/YYYY]: two digits, a slash, two digits, a slash, four digits. *)
Definition is_date_label (s : string) : bool :=
  match s with
  | String m1 (String m2 (String "/" (String d1 (String d2 (String "/"
      (String y1 (String y2 (String y3 (String y4 EmptyString))))))))) =>
      forallb is_digit [m1; m2; d1; d2; y1; y2; y3; y4]
  | _ => false
  end.

(** A label that starts [MM/01/]: the first day of a month. *)
Definition first_of_month_label (s : string) : bool :=
  match s with
  | String m1 (String m2 (String "/" (String "0" (String "1"
      (String "/" _))))) => is_digit m1 && is_digit m2
  | _ => false
  end.

(** The labels of the 36 months from January 2022 to December 2024. *)
Definition months_2022_2024 : list string :=
  [ "01/01/2022"; "02/01/2022"; "03/01/2022"; "04/01/2022"; "05/01/2022";
    "06/01/2022"; "07/01/2022"; "08/01/2022"; "09/01/2022"; "10/01/2022";
    "11/01/2022"; "12/01/2022";
    "01/01/2023"; "02/01/2023"; "03/01/2023"; "04/01/2023"; "05/01/2023";
    "06/01/2023"; "07/01/2023"; "08/01/2023"; "09/01/2023"; "10/01/2023";
    "11/01/2023"; "12/01/2023";
    "01/01/2024"; "02/01/2024"; "03/01/2024"; "04/01/2024"; "05/01/2024";
    "06/01/2024"; "07/01/2024"; "08/01/2024"; "09/01/2024"; "10/01/2024";
    "11/01/2024"; "12/01/2024" ]%string.

(** *** Rows *)

(** What [uniform(5, 50)] computes from the 53 bits [k]. *)
Definition uniform_5_50 (k : Z) : float :=
  add (of_int 5) (mul (of_int 45) (inject_Z k / inject_Z (2 ^ 53))%Q).

(** A row as lines 27-30 build it from two draws. *)
Definition drawn_row (r : row) : Prop :=
  (exists k, (0 <= k < 2 ^ 53)%Z
             /\ unit_price r = round_ndigits (uniform_5_50 k) 2)
  /\ (exists j, (0 <= j < 451)%Z /\ quantity r = (50 + j)%Z)
  /\ sales_amount r
     = round_ndigits (mul (unit_price r) (of_int (quantity r))) 2.

(** The two label columns of a row. *)
Definition row_key (r : row) : string * string :=
  (month_year r, product_name r).

(** *** The file *)

(** A string with no carriage return or line feed in it. *)
Fixpoint no_newline (s : string) : bool :=
  match s with
  | EmptyString => true
  | String c rest =>
      negb (c =? CR)%char && negb (c =? LF)%char && no_newline rest
  end.

(** The header record, as [writerow] joins it. *)
Definition header_line : string :=
  "month/year,product name,unit price,quantity,sales amount"%string.

(** The header as the specification spells it, a space after each
    comma. *)
Definition spec_header_line : string :=
  "month/year, product name, unit price, quantity, sales amount"%string.

(** The record of a data row: five fields, none of them quoted. *)
Definition row_line (r : row) : string :=
  (month_year r ++ "," ++ product_name r ++ ","
   ++ float_repr (unit_price r) ++ "," ++ str_int (quantity r) ++ ","
   ++ float_repr (sales_amount r))%string.

(** *** Counting months *)

(** The first day of [d]'s month at [t]'s time of day. *)
Definition month_start_at (d t : datetime) : datetime :=
  mkdatetime (year d) (month d) 1
    (hour t) (minute t) (second t) (microsecond t).

(** How many labels [get_months] returns when [start < end_]: one per
    month from [start]'s up to the one before [end_]'s, one more for
    [end_]'s own month when its first day, at [start]'s time of day, is
    still below [end_], and never fewer than one. *)
Definition months_counted (start end_ : datetime) : Z :=
  Z.max 1
    (month_index end_ - month_index start
     + (if ltb (month_start_at end_ start) end_ then 1 else 0)).

(** *** Amounts in cents *)

(** [x] in hundredths, to the nearest whole one: the integer that
    [round(x, 2)] rounds to before dividing by 100 again. *)
Definition cents (x : float) : Z := round_half_even (x * 100)%Q.

(** *** Reading the file back *)

(** [text.split(sep)]: the pieces of [text] between the occurrences of
    [sep], as a reader that knows nothing of quoting cuts a line. *)
Fixpoint split_from (sep : ascii) (current text : string) : list string :=
  match text with
  | EmptyString => [current]
  | String c rest =>
      if (c =? sep)%char then current :: split_from sep EmptyString rest
      else split_from sep (current ++ String c EmptyString) rest
  end.

Definition str_split (sep : ascii) (text : string) : list string :=
  split_from sep EmptyString text.

(** The integer a decimal text denotes. *)
Definition read_decimal (s : string) : option Z :=
  option_map Z.of_int (NilZero.int_of_string s).

(** *** The generator *)

(** The generator after the two draws of one row: the 53 bits of the
    unit price first, then the quantity's number below 451. *)
Definition two_draws {G : Type} {RS : RandomSource G} (g : G) : G :=
  snd (randbelow 451 (snd (genrand_res53 g))).

(** ** Strings *)

Section Strings.

Local Open Scope string_scope.

Lemma append_assoc (a b c : string) : (a ++ b) ++ c = a ++ (b ++ c).
Proof.
  induction a as [| x a IH]; [reflexivity |]. cbn. rewrite IH. reflexivity.
Qed.

Lemma append_nil_r (a : string) : a ++ EmptyString = a.
Proof.
  induction a as [| x a IH]; [reflexivity |]. cbn. rewrite IH. reflexivity.
Qed.

End Strings.

(** ** Calendar arithmetic *)

Section Calendar.

Lemma months_cases m :
  1 <= m <= 12 ->
  m = 1 \/ m = 2 \/ m = 3 \/ m = 4 \/ m = 5 \/ m = 6 \/ m = 7
  \/ m = 8 \/ m = 9 \/ m = 10 \/ m = 11 \/ m = 12.
Proof. lia. Qed.

(** Replace a month [m] known to be in [1 .. 12] by each of its twelve
    values. *)
Ltac each_month Hm :=
  let H := fresh "Hmonth" in
  pose proof (months_cases _ Hm) as H;
  repeat (destruct H as [-> | H]); [.. | subst].

Lemma div_mod_unique n d q r :
  0 <= r < d -> n = d * q + r -> n / d = q /\ n mod d = r.
Proof.
  intros Hr Hn. split.
  - symmetry. apply (Z.div_unique_pos n d q r); assumption.
  - symmetry. apply (Z.mod_unique_pos n d q r); assumption.
Qed.

(** A year, less one, in 400-, 100-, 4- and 1-year cycles. *)
Lemma year_cycles Y :
  0 <= Y ->
  exists a b c e,
    Y = 400 * a + 100 * b + 4 * c + e
    /\ 0 <= a /\ 0 <= b < 4 /\ 0 <= c < 25 /\ 0 <= e < 4.
Proof.
  intros HY.
  exists (Y / 400), (Y mod 400 / 100), (Y mod 100 / 4), (Y mod 4).
  Z.to_euclidean_division_equations. lia.
Qed.

Lemma days_before_year_cycles a b c e :
  0 <= a -> 0 <= b < 4 -> 0 <= c < 25 -> 0 <= e < 4 ->
  days_before_year (400 * a + 100 * b + 4 * c + e + 1)
  = 146097 * a + 36524 * b + 1461 * c + 365 * e.
Proof.
  intros Ha Hb Hc He. unfold days_before_year.
  replace (400 * a + 100 * b + 4 * c + e + 1 - 1)
    with (400 * a + 100 * b + 4 * c + e) by lia.
  destruct (div_mod_unique (400 * a + 100 * b + 4 * c + e) 4
              (100 * a + 25 * b + c) e) as [-> _]; [lia | lia |].
  destruct (div_mod_unique (400 * a + 100 * b + 4 * c + e) 100
              (4 * a + b) (4 * c + e)) as [-> _]; [lia | lia |].
  destruct (div_mod_unique (400 * a + 100 * b + 4 * c + e) 400
              a (100 * b + 4 * c + e)) as [-> _]; [lia | lia |].
  lia.
Qed.

Lemma is_leap_cycles a b c e :
  0 <= a -> 0 <= b < 4 -> 0 <= c < 25 -> 0 <= e < 4 ->
  is_leap (400 * a + 100 * b + 4 * c + e + 1)
  = (e =? 3) && (negb (c =? 24) || (b =? 3)).
Proof.
  intros Ha Hb Hc He. unfold is_leap.
  set (y := 400 * a + 100 * b + 4 * c + e + 1).
  assert (H4 : y mod 4 = (e + 1) mod 4).
  { unfold y. replace (400 * a + 100 * b + 4 * c + e + 1)
      with ((e + 1) + (100 * a + 25 * b + c) * 4) by lia.
    apply Z.mod_add. lia. }
  assert (H100 : y mod 100 = (4 * c + e + 1) mod 100).
  { unfold y. replace (400 * a + 100 * b + 4 * c + e + 1)
      with ((4 * c + e + 1) + (4 * a + b) * 100) by lia.
    apply Z.mod_add. lia. }
  assert (H400 : y mod 400 = (100 * b + 4 * c + e + 1) mod 400).
  { unfold y. replace (400 * a + 100 * b + 4 * c + e + 1)
      with ((100 * b + 4 * c + e + 1) + a * 400) by lia.
    apply Z.mod_add. lia. }
  rewrite H4, H100, H400. clear H4 H100 H400 y.
  assert (E4 : ((e + 1) mod 4 =? 0) = (e =? 3)).
  { destruct (Z.eqb_spec e 3) as [-> | He3]; [reflexivity |].
    apply Z.eqb_neq. Z.to_euclidean_division_equations. lia. }
  assert (E100 : ((4 * c + e + 1) mod 100 =? 0) = (e =? 3) && (c =? 24)).
  { destruct (Z.eqb_spec e 3) as [-> | He3];
      destruct (Z.eqb_spec c 24) as [-> | Hc24]; simpl andb;
      try reflexivity; apply Z.eqb_neq;
      Z.to_euclidean_division_equations; lia. }
  assert (E400 : ((100 * b + 4 * c + e + 1) mod 400 =? 0)
                 = (e =? 3) && (c =? 24) && (b =? 3)).
  { destruct (Z.eqb_spec e 3) as [-> | He3];
      destruct (Z.eqb_spec c 24) as [-> | Hc24];
      destruct (Z.eqb_spec b 3) as [-> | Hb3]; simpl andb;
      try reflexivity; apply Z.eqb_neq;
      Z.to_euclidean_division_equations; lia. }
  rewrite E4, E100, E400.
  destruct (e =? 3), (c =? 24), (b =? 3); reflexivity.
Qed.

Lemma month_day_ok_all :
  forallb (fun leapyear =>
    forallb (fun m =>
      forallb (fun d => month_day_ok leapyear (Z.of_nat m) (Z.of_nat d))
        (seq 1 31))
      (seq 1 12))
    [true; false] = true.
Proof. vm_compute. reflexivity. Qed.

Lemma month_day_of_yday_spec leapyear m d :
  1 <= m <= 12 ->
  1 <= d <= (if (m =? 2) && leapyear then 29 else DAYS_IN_MONTH m) ->
  let n :=
    DAYS_BEFORE_MONTH m + (if (2 <? m) && leapyear then 1 else 0) + d - 1 in
  month_day_of_yday leapyear n = (m, d)
  /\ 0 <= n < 365 + (if leapyear then 1 else 0).
Proof.
  intros Hm Hd n.
  assert (Hd31 : d <= 31).
  { destruct ((m =? 2) && leapyear); [lia |].
    assert (DAYS_IN_MONTH m <= 31); [| lia].
    clear Hd. each_month Hm; simpl; lia. }
  pose proof month_day_ok_all as Hall.
  rewrite forallb_forall in Hall.
  assert (Hl : In leapyear [true; false])
    by (destruct leapyear; simpl; auto).
  specialize (Hall _ Hl). rewrite forallb_forall in Hall.
  specialize (Hall (Z.to_nat m)).
  rewrite in_seq, forallb_forall in Hall.
  specialize (Hall ltac:(lia) (Z.to_nat d)).
  rewrite in_seq in Hall. specialize (Hall ltac:(lia)).
  rewrite !Z2Nat.id in Hall by lia.
  unfold month_day_ok in Hall.
  replace (d <=? (if (m =? 2) && leapyear then 29 else DAYS_IN_MONTH m))
    with true in Hall by (symmetry; apply Z.leb_le; lia).
  cbn [implb] in Hall. fold n in Hall.
  assert (Hn : 0 <= n).
  { subst n.
    assert (0 <= DAYS_BEFORE_MONTH m).
    { clear - Hm. each_month Hm; simpl; lia. }
    destruct ((2 <? m) && leapyear); lia. }
  destruct (month_day_of_yday leapyear n) as [m' d'].
  rewrite !andb_true_iff, !Z.eqb_eq, Z.ltb_lt in Hall.
  destruct Hall as [[-> ->] Hlt]. split; [reflexivity | subst n; lia].
Qed.

Lemma ord2ymd_ymd2ord y m d :
  1 <= y -> 1 <= m <= 12 -> 1 <= d <= days_in_month y m ->
  ord2ymd (ymd2ord y m d) = (y, m, d).
Proof.
  intros Hy Hm Hd.
  destruct (month_day_of_yday_spec (is_leap y) m d Hm Hd) as [Hmd Hn].
  cbv zeta in Hmd, Hn.
  unfold ymd2ord, days_before_month.
  set (n := DAYS_BEFORE_MONTH m
            + (if (2 <? m) && is_leap y then 1 else 0) + d - 1) in *.
  replace (days_before_year y
           + (DAYS_BEFORE_MONTH m + (if (2 <? m) && is_leap y then 1 else 0))
           + d) with (days_before_year y + n + 1) by (unfold n; lia).
  clearbody n. clear Hd Hm.
  destruct (year_cycles (y - 1) ltac:(lia)) as (a & b & c & e & HY & Ha & Hb & Hc & He).
  assert (Ey : y = 400 * a + 100 * b + 4 * c + e + 1) by lia.
  clear HY. subst y.
  rewrite days_before_year_cycles in * by assumption.
  rewrite is_leap_cycles in * by assumption.
  unfold ord2ymd.
  change DI400Y with 146097. change DI100Y with 36524. change DI4Y with 1461.
  replace (146097 * a + 36524 * b + 1461 * c + 365 * e + n + 1 - 1)
    with (146097 * a + 36524 * b + 1461 * c + 365 * e + n) by lia.
  cbv zeta.
  destruct (Z.eq_dec n 365) as [-> | Hn365].
  - (* the last day of a leap year *)
    assert (Hleap : (e =? 3) && (negb (c =? 24) || (b =? 3)) = true).
    { destruct ((e =? 3) && (negb (c =? 24) || (b =? 3))); [reflexivity | lia]. }
    rewrite Hleap in Hmd. vm_compute in Hmd. injection Hmd as <- <-.
    rewrite andb_true_iff, orb_true_iff, negb_true_iff, !Z.eqb_eq, Z.eqb_neq
      in Hleap.
    destruct Hleap as [-> Hcb].
    destruct (Z.eq_dec c 24) as [-> | Hc24].
    + destruct Hcb as [Hcb | ->]; [lia |].
      destruct (div_mod_unique (146097 * a + 36524 * 3 + 1461 * 24 + 365 * 3 + 365)
                  146097 a 146096) as [-> ->]; [lia | lia |].
      change (146096 / 36524) with 4. change (146096 mod 36524) with 0.
      change (0 mod 1461) with 0. change (0 / 1461) with 0.
      change (0 / 365) with 0.
      change ((0 =? 4) || (4 =? 4)) with true. cbv iota.
      f_equal. f_equal. lia.
    + destruct (div_mod_unique (146097 * a + 36524 * b + 1461 * c + 365 * 3 + 365)
                  146097 a (36524 * b + 1461 * c + 1460)) as [-> ->];
        [lia | lia |].
      destruct (div_mod_unique (36524 * b + 1461 * c + 1460)
                  36524 b (1461 * c + 1460)) as [-> ->]; [lia | lia |].
      destruct (div_mod_unique (1461 * c + 1460) 1461 c 1460) as [-> ->];
        [lia | lia |].
      change (1460 / 365) with 4. change (4 =? 4) with true.
      cbn [orb]. cbv iota.
      f_equal. f_equal. lia.
  - assert (Hn' : 0 <= n < 365).
    { destruct ((e =? 3) && (negb (c =? 24) || (b =? 3))); lia. }
    destruct (div_mod_unique (146097 * a + 36524 * b + 1461 * c + 365 * e + n)
                146097 a (36524 * b + 1461 * c + 365 * e + n)) as [-> ->];
      [lia | lia |].
    destruct (div_mod_unique (36524 * b + 1461 * c + 365 * e + n)
                36524 b (1461 * c + 365 * e + n)) as [-> ->]; [lia | lia |].
    destruct (div_mod_unique (1461 * c + 365 * e + n) 1461 c (365 * e + n))
      as [-> ->]; [lia | lia |].
    destruct (div_mod_unique (365 * e + n) 365 e n) as [-> ->]; [lia | lia |].
    replace (e =? 4) with false by (symmetry; apply Z.eqb_neq; lia).
    replace (b =? 4) with false by (symmetry; apply Z.eqb_neq; lia).
    cbn [orb]. cbv iota.
    unfold month_day_of_yday in Hmd. cbv zeta in Hmd.
    destruct (n <? _).
    + injection Hmd as Hm' Hd'.
      f_equal; [f_equal; [lia | exact Hm'] | exact Hd'].
    + injection Hmd as Hm' Hd'.
      f_equal; [f_equal; [lia | exact Hm'] | exact Hd'].
Qed.

Lemma div_step k y :
  0 < k -> y / k - (y - 1) / k = if y mod k =? 0 then 1 else 0.
Proof.
  intros Hk. destruct (Z.eqb_spec (y mod k) 0) as [H0 | H0].
  - assert (Hy : y = k * (y / k)).
    { pose proof (Z.div_mod y k ltac:(lia)). lia. }
    destruct (div_mod_unique (y - 1) k (y / k - 1) (k - 1)) as [-> _]; lia.
  - pose proof (Z.div_mod y k ltac:(lia)) as Hy.
    pose proof (Z.mod_pos_bound y k Hk) as Hb.
    destruct (div_mod_unique (y - 1) k (y / k) (y mod k - 1)) as [-> _]; lia.
Qed.

Lemma mod_divides_chain y k j :
  0 < k -> 0 < j -> y mod (k * j) = 0 -> y mod k = 0.
Proof.
  intros Hk Hj H. apply Z.mod_divide in H; [| lia].
  apply Z.mod_divide; [lia |].
  destruct H as [q Hq]. exists (q * j). lia.
Qed.

Lemma days_before_year_succ y :
  days_before_year (y + 1)
  = days_before_year y + 365 + (if is_leap y then 1 else 0).
Proof.
  unfold days_before_year, is_leap. cbv zeta.
  replace (y + 1 - 1) with y by lia.
  pose proof (div_step 4 y ltac:(lia)) as H4.
  pose proof (div_step 100 y ltac:(lia)) as H100.
  pose proof (div_step 400 y ltac:(lia)) as H400.
  pose proof (mod_divides_chain y 4 25 ltac:(lia) ltac:(lia)) as C1.
  pose proof (mod_divides_chain y 100 4 ltac:(lia) ltac:(lia)) as C2.
  change (4 * 25) with 100 in C1. change (100 * 4) with 400 in C2.
  destruct (Z.eqb_spec (y mod 4) 0), (Z.eqb_spec (y mod 100) 0),
    (Z.eqb_spec (y mod 400) 0); cbn [andb orb negb]; lia.
Qed.

Lemma days_before_year_mono y k :
  0 <= k -> days_before_year y + 365 * k <= days_before_year (y + k).
Proof.
  intros Hk. pattern k. apply natlike_ind; [| | exact Hk].
  - cbv beta. replace (y + 0) with y by lia. lia.
  - cbv beta. intros x Hx IH. replace (y + Z.succ x) with (y + x + 1) by lia.
    rewrite days_before_year_succ. destruct (is_leap (y + x)); lia.
Qed.

Lemma days_before_year_nonneg y : 1 <= y -> 0 <= days_before_year y.
Proof.
  intros Hy. pose proof (days_before_year_mono 1 (y - 1) ltac:(lia)) as H.
  replace (1 + (y - 1)) with y in H by lia.
  change (days_before_year 1) with 0 in H. lia.
Qed.

Lemma days_in_month_bounds y m :
  1 <= m <= 12 -> 28 <= days_in_month y m <= 31.
Proof.
  intros Hm. unfold days_in_month.
  each_month Hm; destruct (is_leap y); simpl; lia.
Qed.

Lemma days_before_month_bounds y m :
  1 <= m <= 12 -> 0 <= days_before_month y m <= 335.
Proof.
  intros Hm. unfold days_before_month.
  each_month Hm; destruct (is_leap y); simpl; lia.
Qed.

(** Day 28 plus four days is day [32 - days_in_month] of the next month. *)
Lemma ymd2ord_day32 y m :
  1 <= m <= 12 ->
  let '(y', m') := next_year_month y m in
  ymd2ord y m 28 + 4 = ymd2ord y' m' (32 - days_in_month y m).
Proof.
  intros Hm. unfold next_year_month, ymd2ord.
  destruct (Z.eqb_spec m 12) as [-> | H12].
  - rewrite days_before_year_succ.
    unfold days_before_month, days_in_month.
    destruct (is_leap y), (is_leap (y + 1)); simpl; lia.
  - unfold days_before_month, days_in_month.
    each_month Hm; try lia; destruct (is_leap y); simpl; lia.
Qed.

Lemma MAXORDINAL_eq : MAXORDINAL = days_before_year MAXYEAR + 365.
Proof. reflexivity. Qed.

(** What [ord2ymd] returns four days after day 28: the next month's day
    1 to 4, as long as that month exists. *)
Lemma ord2ymd_day32 y m :
  1 <= y <= MAXYEAR -> 1 <= m <= 12 -> (y, m) <> (MAXYEAR, 12) ->
  let '(y', m') := next_year_month y m in
  0 < ymd2ord y m 28 + 4 <= MAXORDINAL
  /\ ord2ymd (ymd2ord y m 28 + 4) = (y', m', 32 - days_in_month y m)
  /\ 1 <= y' <= MAXYEAR /\ 1 <= m' <= 12.
Proof.
  intros Hy Hm Hne.
  pose proof (ymd2ord_day32 y m Hm) as H32.
  pose proof (days_in_month_bounds y m Hm) as Hdim.
  destruct (next_year_month y m) as [y' m'] eqn:Enext.
  assert (Hy' : 1 <= y' <= MAXYEAR /\ 1 <= m' <= 12).
  { unfold next_year_month in Enext. unfold MAXYEAR in *.
    destruct (Z.eqb_spec m 12) as [-> | H12]; injection Enext as <- <-.
    - assert (y <> 9999) by congruence. lia.
    - lia. }
  destruct Hy' as [Hy' Hm'].
  pose proof (days_in_month_bounds y' m' Hm') as Hdim'.
  rewrite H32. repeat split; try lia.
  - unfold ymd2ord.
    pose proof (days_before_year_nonneg y' ltac:(lia)).
    pose proof (days_before_month_bounds y' m' Hm'). lia.
  - rewrite MAXORDINAL_eq. unfold ymd2ord.
    pose proof (days_before_year_mono y' (MAXYEAR - y') ltac:(lia)) as Hmono.
    replace (y' + (MAXYEAR - y')) with MAXYEAR in Hmono by lia.
    pose proof (days_before_month_bounds y' m' Hm'). lia.
  - apply ord2ymd_ymd2ord; lia.
Qed.

Lemma ymd2ord_day32_overflow : MAXORDINAL < ymd2ord MAXYEAR 12 28 + 4.
Proof. reflexivity. Qed.

End Calendar.

(** ** The loop body *)

Section Advance.

Lemma valid_fields d :
  valid d = true ->
  (1 <= year d <= MAXYEAR /\ 1 <= month d <= 12
   /\ 1 <= day d <= days_in_month (year d) (month d))
  /\ (0 <= hour d <= 23 /\ 0 <= minute d <= 59 /\ 0 <= second d <= 59
      /\ 0 <= microsecond d <= 999999).
Proof.
  unfold valid, check_date_fields, check_time_fields, MINYEAR.
  rewrite !andb_true_iff, !Z.leb_le. intuition lia.
Qed.

Lemma check_date_fields_true y m d :
  1 <= y <= MAXYEAR -> 1 <= m <= 12 -> 1 <= d <= days_in_month y m ->
  check_date_fields y m d = true.
Proof.
  intros. unfold check_date_fields, MINYEAR.
  rewrite !andb_true_iff, !Z.leb_le. intuition lia.
Qed.

Lemma check_time_fields_true h mi s us :
  0 <= h <= 23 -> 0 <= mi <= 59 -> 0 <= s <= 59 -> 0 <= us <= 999999 ->
  check_time_fields h mi s us = true.
Proof.
  intros. unfold check_time_fields.
  rewrite !andb_true_iff, !Z.leb_le. intuition lia.
Qed.

(** A normalised time of day survives the trip through [timedelta]. *)
Lemma timedelta_of_time n h mi s us :
  0 <= h <= 23 -> 0 <= mi <= 59 -> 0 <= s <= 59 -> 0 <= us <= 999999 ->
  timedelta_add (timedelta_new n (h * 3600 + mi * 60 + s) us)
    (timedelta_new 4 0 0)
  = mktimedelta (n + 4) (h * 3600 + mi * 60 + s) us.
Proof.
  intros Hh Hmi Hs Hus.
  assert (E1 : timedelta_new n (h * 3600 + mi * 60 + s) us
               = mktimedelta n (h * 3600 + mi * 60 + s) us).
  { unfold timedelta_new.
    rewrite (Z.div_small us 1000000), (Z.mod_small us 1000000) by lia.
    rewrite Z.add_0_r.
    rewrite (Z.div_small _ 86400), (Z.mod_small _ 86400) by lia.
    rewrite Z.add_0_r. reflexivity. }
  rewrite E1. change (timedelta_new 4 0 0) with (mktimedelta 4 0 0).
  unfold timedelta_add. cbn [td_days td_seconds td_microseconds].
  rewrite !Z.add_0_r. unfold timedelta_new.
  rewrite (Z.div_small us 1000000), (Z.mod_small us 1000000) by lia.
  rewrite Z.add_0_r.
  rewrite (Z.div_small _ 86400), (Z.mod_small _ 86400) by lia.
  rewrite Z.add_0_r. reflexivity.
Qed.

Lemma time_of_seconds h mi s :
  0 <= h <= 23 -> 0 <= mi <= 59 -> 0 <= s <= 59 ->
  let secs := h * 3600 + mi * 60 + s in
  secs / 3600 = h /\ (secs mod 3600) / 60 = mi /\ (secs mod 3600) mod 60 = s.
Proof.
  intros Hh Hmi Hs secs.
  destruct (div_mod_unique secs 3600 h (mi * 60 + s)) as [-> ->];
    [lia | unfold secs; lia |].
  destruct (div_mod_unique (mi * 60 + s) 60 mi s) as [-> ->];
    [lia | lia |].
  auto.
Qed.

(** Adding four days to day 28 of a month, as [datetime.__add__] does. *)
Lemma datetime_add_day28 y m h mi s us :
  1 <= y <= MAXYEAR -> 1 <= m <= 12 ->
  0 <= h <= 23 -> 0 <= mi <= 59 -> 0 <= s <= 59 -> 0 <= us <= 999999 ->
  datetime_add (mkdatetime y m 28 h mi s us) (timedelta_new 4 0 0)
  = if (y =? MAXYEAR) && (m =? 12) then Raised OverflowError
    else
      let '(y', m') := next_year_month y m in
      Returned (mkdatetime y' m' (32 - days_in_month y m) h mi s us).
Proof.
  intros Hy Hm Hh Hmi Hs Hus.
  unfold datetime_add, toordinal.
  cbn [year month day hour minute second microsecond].
  rewrite timedelta_of_time by assumption.
  cbn [td_days td_seconds td_microseconds].
  destruct (time_of_seconds h mi s Hh Hmi Hs) as (-> & -> & ->).
  destruct ((y =? MAXYEAR) && (m =? 12)) eqn:Elast.
  - apply andb_true_iff in Elast. rewrite !Z.eqb_eq in Elast.
    destruct Elast as [-> ->].
    replace (ymd2ord MAXYEAR 12 28 + 4 <=? MAXORDINAL) with false
      by reflexivity.
    rewrite andb_false_r. reflexivity.
  - assert (Hne : (y, m) <> (MAXYEAR, 12)).
    { intros E. injection E as -> ->. discriminate Elast. }
    pose proof (ord2ymd_day32 y m Hy Hm Hne) as H32.
    destruct (next_year_month y m) as [y' m'].
    destruct H32 as (Hrange & -> & _).
    replace (0 <? ymd2ord y m 28 + 4) with true
      by (symmetry; apply Z.ltb_lt; lia).
    replace (ymd2ord y m 28 + 4 <=? MAXORDINAL) with true
      by (symmetry; apply Z.leb_le; lia).
    reflexivity.
Qed.

Lemma advance_spec d :
  valid d = true ->
  advance d
  = if in_last_month d then Raised OverflowError
    else Returned (first_of_next_month d).
Proof.
  intros Hv. destruct (valid_fields d Hv) as [(Hy & Hm & Hd) (Hh & Hmi & Hs & Hus)].
  pose proof (days_in_month_bounds (year d) (month d) Hm) as Hdim.
  unfold advance, replace_day, datetime_new.
  rewrite check_date_fields_true, check_time_fields_true by (assumption || lia).
  cbn [andb bind].
  rewrite datetime_add_day28 by assumption.
  unfold in_last_month, first_of_next_month.
  destruct ((year d =? MAXYEAR) && (month d =? 12)) eqn:Elast;
    [reflexivity |].
  assert (Hne : (year d, month d) <> (MAXYEAR, 12)).
  { intros E. injection E as E1 E2. rewrite E1, E2 in Elast. discriminate Elast. }
  pose proof (ord2ymd_day32 _ _ Hy Hm Hne) as H32.
  destruct (next_year_month (year d) (month d)) as [y' m'].
  destruct H32 as (_ & _ & Hy' & Hm').
  cbn [bind year month day hour minute second microsecond].
  pose proof (days_in_month_bounds y' m' Hm').
  rewrite check_date_fields_true, check_time_fields_true by (assumption || lia).
  reflexivity.
Qed.

End Advance.

(** ** The order on datetimes *)

Section Order.

Lemma valid_day_le_31 d : valid d = true -> day d <= 31.
Proof.
  intros Hv. destruct (valid_fields d Hv) as [(_ & Hm & Hd) _].
  pose proof (days_in_month_bounds (year d) (month d) Hm). lia.
Qed.

Lemma cmp_key a b :
  valid a = true -> valid b = true -> cmp a b = (key a ?= key b).
Proof.
  intros Ha Hb.
  pose proof (valid_day_le_31 a Ha) as Hda.
  pose proof (valid_day_le_31 b Hb) as Hdb.
  destruct (valid_fields a Ha) as [(Hy & Hm & Hd) (Hh & Hmi & Hs & Hus)].
  destruct (valid_fields b Hb) as [(Hy' & Hm' & Hd') (Hh' & Hmi' & Hs' & Hus')].
  unfold cmp, fields, key. cbn [cmp_tuple].
  symmetry.
  repeat match goal with
  | |- context [match ?x ?= ?y with _ => _ end] =>
      destruct (Z.compare_spec x y)
  end;
  first [ apply Z.compare_eq_iff | apply Z.compare_lt_iff
        | apply Z.compare_gt_iff ]; nia.
Qed.

Lemma ltb_key a b :
  valid a = true -> valid b = true -> ltb a b = (key a <? key b).
Proof.
  intros Ha Hb. unfold ltb, Z.ltb. rewrite (cmp_key a b Ha Hb).
  destruct (key a ?= key b); reflexivity.
Qed.

Lemma geb_ltb a b : geb a b = negb (ltb a b).
Proof. unfold geb, ltb. destruct (cmp a b); reflexivity. Qed.

End Order.

(** ** The running dates of [get_months] *)

Section Running.

Context {CL : CLibrary}.

Lemma month_index_split d :
  1 <= month d <= 12 ->
  month_index d / 12 = year d /\ month_index d mod 12 + 1 = month d.
Proof.
  intros Hm. unfold month_index.
  destruct (div_mod_unique (year d * 12 + (month d - 1)) 12
              (year d) (month d - 1)) as [-> ->]; lia.
Qed.

Lemma month_index_running start i :
  1 <= month start <= 12 ->
  month_index (running_date start i) = month_index start + Z.of_nat i.
Proof.
  intros Hm. destruct i as [| i].
  - simpl. lia.
  - unfold running_date. set (mi := month_index start + Z.of_nat (S i)).
    unfold month_index at 1. cbn [year month].
    pose proof (Z.div_mod mi 12 ltac:(lia)). lia.
Qed.

Lemma first_of_next_month_index d :
  1 <= month d <= 12 ->
  first_of_next_month d
  = let mi := month_index d + 1 in
    mkdatetime (mi / 12) (mi mod 12 + 1) 1
      (hour d) (minute d) (second d) (microsecond d).
Proof.
  intros Hm. unfold first_of_next_month, next_year_month, month_index.
  cbv zeta.
  destruct (Z.eqb_spec (month d) 12) as [E | E].
  - destruct (div_mod_unique (year d * 12 + (month d - 1) + 1) 12
                (year d + 1) 0) as [-> ->]; [lia | lia |]. reflexivity.
  - destruct (div_mod_unique (year d * 12 + (month d - 1) + 1) 12
                (year d) (month d)) as [-> ->]; [lia | lia |]. reflexivity.
Qed.

Lemma first_of_next_month_running start i :
  1 <= month start <= 12 ->
  first_of_next_month (running_date start i) = running_date start (S i).
Proof.
  intros Hm.
  assert (Hm' : 1 <= month (running_date start i) <= 12).
  { destruct i; [exact Hm |]. unfold running_date. cbn [month].
    pose proof (Z.mod_pos_bound (month_index start + Z.of_nat (S i)) 12
                  ltac:(lia)). lia. }
  rewrite (first_of_next_month_index _ Hm').
  rewrite (month_index_running start i Hm). cbv zeta.
  replace (month_index start + Z.of_nat i + 1)
    with (month_index start + Z.of_nat (S i)) by lia.
  destruct i; reflexivity.
Qed.

Lemma valid_running start i :
  valid start = true ->
  month_index start + Z.of_nat i <= MAX_MONTH_INDEX ->
  valid (running_date start i) = true.
Proof.
  intros Hv Hi. destruct i as [| i]; [exact Hv |].
  destruct (valid_fields start Hv) as [(Hy & Hm & Hd) (Hh & Hmi & Hs & Hus)].
  unfold running_date, valid. cbv zeta.
  cbn [year month day hour minute second microsecond].
  set (mi := month_index start + Z.of_nat (S i)) in *.
  assert (Hmi12 : 12 <= mi <= MAX_MONTH_INDEX).
  { unfold mi, month_index in *. lia. }
  unfold MAX_MONTH_INDEX, MAXYEAR in *.
  pose proof (Z.div_mod mi 12 ltac:(lia)).
  pose proof (Z.mod_pos_bound mi 12 ltac:(lia)).
  assert (Hmo : 1 <= mi mod 12 + 1 <= 12) by lia.
  pose proof (days_in_month_bounds (mi / 12) (mi mod 12 + 1) Hmo).
  rewrite check_date_fields_true, check_time_fields_true;
    unfold MAXYEAR; (reflexivity || assumption || lia).
Qed.

Lemma in_last_month_index d :
  1 <= month d <= 12 ->
  in_last_month d = (month_index d =? MAX_MONTH_INDEX).
Proof.
  intros Hm. unfold in_last_month, month_index, MAX_MONTH_INDEX.
  destruct (Z.eqb_spec (year d) MAXYEAR) as [E | E];
    destruct (Z.eqb_spec (month d) 12) as [E' | E']; cbn [andb];
    symmetry; (apply Z.eqb_eq || apply Z.eqb_neq); lia.
Qed.

(** The loop from the [i]-th running date on: it passes [n] tests of
    [current < end_], then either fails the next test and returns, or has
    reached December 9999 and raises on the step out of it. *)
Lemma get_months_loop_run start end_ :
  valid start = true ->
  forall (k i : nat) (months : list string) (fuel : nat),
    month_index start + Z.of_nat i + Z.of_nat k = MAX_MONTH_INDEX ->
    (k < fuel)%nat ->
    exists n : nat,
      (forall j, (i <= j < i + n)%nat ->
                 ltb (running_date start j) end_ = true)
      /\ ((ltb (running_date start (i + n)) end_ = false
           /\ (n <= k)%nat
           /\ get_months_loop fuel (running_date start i) end_ months
              = Some (Returned
                        (months
                         ++ map (fun j => label (running_date start j))
                              (seq i n))))
          \/ (n = S k
              /\ get_months_loop fuel (running_date start i) end_ months
                 = Some (Raised OverflowError))).
Proof.
  intros Hv.
  destruct (valid_fields start Hv) as [(_ & Hm & _) _].
  induction k as [| k IH]; intros i months fuel Hk Hfuel;
    (destruct fuel as [| fuel]; [lia |]); cbn [get_months_loop];
    destruct (ltb (running_date start i) end_) eqn:Elt.
  - (* December 9999, still below [end_]: the step raises *)
    exists 1%nat. split.
    + intros j Hj. replace j with i by lia. exact Elt.
    + right. split; [reflexivity |].
      assert (Hvi : valid (running_date start i) = true)
        by (apply valid_running; [assumption | lia]).
      rewrite advance_spec by assumption.
      rewrite in_last_month_index
        by (pose proof (valid_fields _ Hvi); intuition lia).
      rewrite month_index_running by assumption.
      replace (month_index start + Z.of_nat i =? MAX_MONTH_INDEX) with true
        by (symmetry; apply Z.eqb_eq; lia).
      reflexivity.
  - exists 0%nat. split; [intros j Hj; lia |]. left.
    rewrite Nat.add_0_r. split; [exact Elt |]. split; [lia |].
    cbn [seq map]. rewrite app_nil_r. reflexivity.
  - (* an earlier month: the step lands on the next running date *)
    assert (Hvi : valid (running_date start i) = true)
      by (apply valid_running; [assumption | lia]).
    rewrite advance_spec by assumption.
    rewrite in_last_month_index
      by (pose proof (valid_fields _ Hvi); intuition lia).
    rewrite month_index_running by assumption.
    replace (month_index start + Z.of_nat i =? MAX_MONTH_INDEX) with false
      by (symmetry; apply Z.eqb_neq; lia).
    rewrite first_of_next_month_running by assumption.
    destruct (IH (S i) (months ++ [strftime (running_date start i) "%m/%d/%Y"])
                fuel ltac:(lia) ltac:(lia)) as (n & Hlt & Hres).
    exists (S n). split.
    + intros j Hj. destruct (Nat.eq_dec j i) as [-> | Hne];
        [exact Elt | apply Hlt; lia].
    + replace (i + S n)%nat with (S i + n)%nat by lia.
      destruct Hres as [(Hstop & Hn & Hrun) | (Hn & Hrun)].
      * left. split; [exact Hstop |]. split; [lia |].
        rewrite Hrun. cbn [seq map]. rewrite <- app_assoc. reflexivity.
      * right. split; [lia | exact Hrun].
  - exists 0%nat. split; [intros j Hj; lia |]. left.
    rewrite Nat.add_0_r. split; [exact Elt |]. split; [lia |].
    cbn [seq map]. rewrite app_nil_r. reflexivity.
Qed.

End Running.

(** ** Labels *)

Section Labels.

Lemma digit_char_cases n :
  In (digit_char n) ["0"; "1"; "2"; "3"; "4"; "5"; "6"; "7"; "8"; "9"]%char.
Proof.
  unfold digit_char.
  pose proof (Z.mod_pos_bound n 10 ltac:(lia)) as Hb.
  assert (Hc : n mod 10 = 0 \/ n mod 10 = 1 \/ n mod 10 = 2 \/ n mod 10 = 3
               \/ n mod 10 = 4 \/ n mod 10 = 5 \/ n mod 10 = 6
               \/ n mod 10 = 7 \/ n mod 10 = 8 \/ n mod 10 = 9) by lia.
  repeat (destruct Hc as [-> | Hc]; [cbn; tauto |]).
  rewrite Hc. cbn. tauto.
Qed.

(** Prove a goal about [digit_char n] for each of the ten digits. *)
Ltac each_digit n :=
  let H := fresh "Hdigit" in
  pose proof (digit_char_cases n) as H; cbn [In] in H;
  repeat (destruct H as [<- | H]); [.. | contradiction].

Lemma is_digit_digit_char n : is_digit (digit_char n) = true.
Proof. each_digit n; reflexivity. Qed.

Context {CL : CLibrary}.

Lemma label_eq d :
  label d
  = (zero_padded 2 (month d) ++ "/" ++ zero_padded 2 (day d) ++ "/"
     ++ format_year (year d))%string.
Proof.
  unfold label. cbn [strftime]. cbn -[Z.div Z.modulo digit_char].
  rewrite append_nil_r. reflexivity.
Qed.

(** From year 1000 on a label is MM/DD/YYYY on every platform. *)
Lemma is_date_label_label d :
  1000 <= year d <= 9999 -> is_date_label (label d) = true.
Proof.
  intros Hy. rewrite label_eq, (format_year_4_digits _ Hy).
  cbn -[Z.div Z.modulo digit_char is_digit].
  rewrite !is_digit_digit_char. reflexivity.
Qed.

Lemma first_of_month_label_label d :
  day d = 1 -> first_of_month_label (label d) = true.
Proof.
  intros Hd. rewrite label_eq, Hd.
  change (zero_padded 2 1) with "01"%string.
  cbn -[Z.div Z.modulo digit_char is_digit].
  rewrite !is_digit_digit_char. reflexivity.
Qed.

End Labels.

(** ** The month enumerator: results *)

Section GetMonths.

Context {CL : CLibrary}.

Lemma months_fuel_eq start :
  1 <= year start <= MAXYEAR -> 1 <= month start <= 12 ->
  months_fuel start
  = S (Z.to_nat (MAX_MONTH_INDEX - month_index start)).
Proof.
  intros Hy Hm. unfold months_fuel.
  assert (0 <= MAX_MONTH_INDEX - month_index start).
  { unfold MAX_MONTH_INDEX, month_index. lia. }
  rewrite Z2Nat.inj_add by lia. rewrite Nat.add_1_r. reflexivity.
Qed.

(** [get_months] in full: [n] running dates pass the loop condition,
    then the loop returns their labels or, out of December 9999, raises. *)
Lemma get_months_run start end_ :
  valid start = true ->
  exists n : nat,
    (forall j, (j < n)%nat -> ltb (running_date start j) end_ = true)
    /\ ((ltb (running_date start n) end_ = false
         /\ month_index start + Z.of_nat n <= MAX_MONTH_INDEX
         /\ get_months start end_
            = Some (Returned
                      (map (fun j => label (running_date start j)) (seq 0 n))))
        \/ (month_index start + Z.of_nat n = MAX_MONTH_INDEX + 1
            /\ get_months start end_ = Some (Raised OverflowError))).
Proof.
  intros Hv.
  destruct (valid_fields start Hv) as [(Hy & Hm & _) _].
  assert (Hk : 0 <= MAX_MONTH_INDEX - month_index start).
  { unfold MAX_MONTH_INDEX, month_index. lia. }
  unfold get_months. rewrite months_fuel_eq by assumption.
  set (k := Z.to_nat (MAX_MONTH_INDEX - month_index start)).
  destruct (get_months_loop_run start end_ Hv k 0 [] (S k)
              ltac:(unfold k; lia) ltac:(lia)) as (n & Hlt & Hres).
  exists n. split; [intros j Hj; apply Hlt; lia |].
  cbn [Nat.add app] in Hres.
  destruct Hres as [(Hstop & Hn & Hrun) | (Hn & Hrun)].
  - left. split; [exact Hstop |]. split; [unfold k in Hn; lia | exact Hrun].
  - right. split; [unfold k in Hn; lia | exact Hrun].
Qed.

(** A running date in December 9999 is not below an [end_] that is at
    most [last_month_start]. *)
Lemma last_month_not_below d end_ :
  valid d = true -> valid end_ = true ->
  month_index d = MAX_MONTH_INDEX ->
  ltb last_month_start end_ = false ->
  ltb d end_ = false.
Proof.
  intros Hd He Hmi Hlast.
  rewrite ltb_key in * by (assumption || reflexivity).
  apply Z.ltb_ge. apply Z.ltb_ge in Hlast.
  destruct (valid_fields d Hd) as [(Hy & Hm & Hday) (Hh & Hmin & Hs & Hus)].
  unfold month_index, MAX_MONTH_INDEX, MAXYEAR in *.
  assert (year d = 9999 /\ month d = 12) as [Ey Em] by lia.
  unfold key in *. cbn [year month day hour minute second microsecond
    last_month_start] in *. unfold MAXYEAR in *. rewrite Ey, Em. lia.
Qed.

Lemma get_months_returns start end_ :
  valid start = true -> valid end_ = true ->
  ltb last_month_start end_ = false ->
  exists n : nat,
    get_months start end_
    = Some (Returned (map (fun j => label (running_date start j)) (seq 0 n)))
    /\ (forall j, (j < n)%nat -> ltb (running_date start j) end_ = true)
    /\ ltb (running_date start n) end_ = false.
Proof.
  intros Hv He Hlast.
  destruct (valid_fields start Hv) as [(_ & Hm & _) _].
  destruct (get_months_run start end_ Hv) as (n & Hlt & Hres).
  exists n.
  destruct Hres as [(Hstop & Hn & Hrun) | (Hn & Hrun)]; [auto |].
  exfalso. destruct n as [| n].
  - unfold MAX_MONTH_INDEX, month_index, MAXYEAR in *.
    destruct (valid_fields start Hv) as [(Hy & _ & _) _].
    unfold MAXYEAR in *. lia.
  - specialize (Hlt n ltac:(lia)).
    rewrite (last_month_not_below (running_date start n) end_) in Hlt;
      [discriminate | | assumption | | assumption].
    + apply valid_running; [assumption | lia].
    + rewrite month_index_running by assumption. lia.
Qed.

(** C1 (as amended). For valid [start] and [end_] with [end_] no later
    than 9999-12-01 00:00, [get_months] returns the labels of the running
    dates [running_date start 0 .. n-1] in order, one per calendar month
    from [start]'s on: [start] itself, then the first day of each
    following month, for exactly as long as the running date is strictly
    below [end_].  A label of year 1000 or later has the form MM/DD/YYYY
    (below that the platform decides how many digits the year takes);
    every label after the first, and the first too when [start] is on
    day 1, is the first day of its month. *)
Theorem get_months_labels start end_ :
  valid start = true -> valid end_ = true ->
  ltb last_month_start end_ = false ->
  exists n : nat,
    get_months start end_
    = Some (Returned (map (fun j => label (running_date start j)) (seq 0 n)))
    /\ (forall j, (j < n)%nat -> ltb (running_date start j) end_ = true)
    /\ ltb (running_date start n) end_ = false
    /\ (forall j, month_index (running_date start j)
                  = month_index start + Z.of_nat j)
    /\ (forall j, 1000 <= year (running_date start j) <= 9999 ->
                  is_date_label (label (running_date start j)) = true)
    /\ (forall j, (1 <= j)%nat \/ day start = 1 ->
                  first_of_month_label (label (running_date start j)) = true).
Proof.
  intros Hv He Hlast.
  destruct (valid_fields start Hv) as [(_ & Hm & _) _].
  destruct (get_months_returns start end_ Hv He Hlast) as (n & Hrun & Hlt & Hstop).
  exists n. repeat split; try assumption.
  - intros j. apply month_index_running. assumption.
  - intros j Hy. apply is_date_label_label; apply Hy.
  - intros j Hj. apply first_of_month_label_label.
    destruct j as [| j]; [| reflexivity].
    destruct Hj as [Hj | Hj]; [lia | exact Hj].
Qed.

(** C2 (as amended). For every valid datetime [d] outside December 9999,
    the step -- day 28, plus four days, day 1 -- returns the first day of
    the calendar month right after [d]'s, at [d]'s time of day, whatever
    the month's length: the month index grows by exactly one.  In
    December 9999 the addition raises OverflowError. *)
Theorem advance_next_month d :
  valid d = true ->
  if in_last_month d then advance d = Raised OverflowError
  else
    exists d',
      advance d = Returned d'
      /\ valid d' = true
      /\ day d' = 1
      /\ (year d', month d')
         = (if month d =? 12 then (year d + 1, 1) else (year d, month d + 1))
      /\ month_index d' = month_index d + 1
      /\ (hour d', minute d', second d', microsecond d')
         = (hour d, minute d, second d, microsecond d).
Proof.
  intros Hv. rewrite (advance_spec d Hv).
  destruct (in_last_month d) eqn:Elast; [reflexivity |].
  destruct (valid_fields d Hv) as [(Hy & Hm & Hd) Ht].
  exists (first_of_next_month d). split; [reflexivity |].
  assert (Hi : month_index d <> MAX_MONTH_INDEX).
  { rewrite in_last_month_index in Elast by assumption.
    apply Z.eqb_neq. exact Elast. }
  assert (Hr : first_of_next_month d = running_date d 1)
    by (apply (first_of_next_month_running d 0 Hm)).
  split.
  { rewrite Hr. apply valid_running; [assumption |].
    unfold MAX_MONTH_INDEX, month_index in *. lia. }
  split.
  { unfold first_of_next_month.
    destruct (next_year_month (year d) (month d)); reflexivity. }
  split.
  { unfold first_of_next_month, next_year_month.
    destruct (month d =? 12); reflexivity. }
  split.
  { rewrite Hr, month_index_running by assumption. lia. }
  unfold first_of_next_month.
  destruct (next_year_month (year d) (month d)); reflexivity.
Qed.

Lemma start_date_constructed :
  datetime_new 2022 1 1 0 0 0 0 = Returned start_date.
Proof. reflexivity. Qed.

Lemma end_date_constructed :
  datetime_new 2025 1 1 0 0 0 0 = Returned end_date.
Proof. reflexivity. Qed.

Lemma get_months_script :
  get_months start_date end_date = Some (Returned months_2022_2024).
Proof.
  lazy -[format_year].
  rewrite (format_year_4_digits 2022), (format_year_4_digits 2023),
    (format_year_4_digits 2024) by lia.
  reflexivity.
Qed.

(** C3. From 2022-01-01 to 2025-01-01 (exclusive) [get_months] returns
    exactly 36 labels, the first "01/01/2022" and the last "12/01/2024". *)
Theorem get_months_2022_2025 :
  get_months start_date end_date = Some (Returned months_2022_2024)
  /\ List.length months_2022_2024 = 36%nat
  /\ hd_error months_2022_2024 = Some "01/01/2022"%string
  /\ last months_2022_2024 EmptyString = "12/01/2024"%string.
Proof.
  split; [exact get_months_script |]. repeat split.
Qed.

(** C4 (as amended). For valid [start >= end_], [get_months] returns the
    empty list.  Its one error condition is the OverflowError of the step
    out of December 9999, reached only when [start < end_] and [end_] is
    later than 9999-12-01 00:00; for any earlier [end_] it returns. *)
Theorem get_months_errors start end_ :
  valid start = true -> valid end_ = true ->
  (geb start end_ = true -> get_months start end_ = Some (Returned []))
  /\ (ltb last_month_start end_ = false ->
      exists months, get_months start end_ = Some (Returned months))
  /\ (forall e, get_months start end_ = Some (Raised e) ->
        e = OverflowError
        /\ ltb start end_ = true
        /\ ltb last_month_start end_ = true).
Proof.
  intros Hv He.
  destruct (valid_fields start Hv) as [(Hy & Hm & _) _].
  split; [| split].
  - intros Hge. rewrite geb_ltb in Hge. apply negb_true_iff in Hge.
    unfold get_months. rewrite months_fuel_eq by assumption.
    cbn [get_months_loop]. rewrite Hge. reflexivity.
  - intros Hlast.
    destruct (get_months_returns start end_ Hv He Hlast) as (n & Hrun & _).
    eexists. exact Hrun.
  - intros e Hraise.
    destruct (get_months_run start end_ Hv) as (n & Hlt & Hres).
    destruct Hres as [(_ & _ & Hrun) | (Hn & Hrun)];
      rewrite Hrun in Hraise; [discriminate |].
    injection Hraise as <-. split; [reflexivity |].
    assert (Hn0 : (0 < n)%nat).
    { unfold MAX_MONTH_INDEX, month_index, MAXYEAR in *. lia. }
    split; [exact (Hlt 0%nat Hn0) |].
    destruct (ltb last_month_start end_) eqn:Hlast; [reflexivity |].
    destruct n as [| n]; [lia |].
    specialize (Hlt n ltac:(lia)).
    rewrite (last_month_not_below (running_date start n) end_) in Hlt;
      [discriminate | | assumption | | assumption].
    + apply valid_running; [assumption | lia].
    + rewrite month_index_running by assumption. lia.
Qed.

Lemma get_months_loop_more_fuel start end_ fuel :
  valid start = true ->
  (months_fuel start <= fuel)%nat ->
  get_months_loop fuel start end_ [] = get_months start end_.
Proof.
  intros Hv Hfuel.
  destruct (valid_fields start Hv) as [(Hy & Hm & _) _].
  assert (Hk : 0 <= MAX_MONTH_INDEX - month_index start).
  { unfold MAX_MONTH_INDEX, month_index. lia. }
  rewrite months_fuel_eq in Hfuel by assumption.
  unfold get_months. rewrite months_fuel_eq by assumption.
  set (k := Z.to_nat (MAX_MONTH_INDEX - month_index start)) in *.
  destruct (get_months_loop_run start end_ Hv k 0 [] (S k)
              ltac:(unfold k; lia) ltac:(lia)) as (n & Hlt & Hres).
  destruct (get_months_loop_run start end_ Hv k 0 [] fuel
              ltac:(unfold k; lia) ltac:(lia)) as (n' & Hlt' & Hres').
  cbn [Nat.add running_date] in *.
  assert (En : n' = n).
  { destruct (Nat.lt_trichotomy n' n) as [Hlt1 | [E | Hlt1]]; [| exact E |].
    - destruct Hres' as [(Hstop & _) | (Hn' & _)].
      + rewrite (Hlt n' ltac:(lia)) in Hstop. discriminate.
      + destruct Hres as [(_ & Hn & _) | (Hn & _)]; lia.
    - destruct Hres as [(Hstop & _) | (Hn & _)].
      + rewrite (Hlt' n ltac:(lia)) in Hstop. discriminate.
      + destruct Hres' as [(_ & Hn' & _) | (Hn' & _)]; lia. }
  subst n'.
  destruct Hres as [(_ & Hn & ->) | (Hn & ->)];
    destruct Hres' as [(_ & Hn' & ->) | (Hn' & ->)]; try reflexivity; lia.
Qed.

(** C10 (as amended). [get_months] terminates on every valid [start] and
    any [end_]: within [months_fuel start] tests of the loop condition
    (one per month from [start]'s to 9999-12) it has returned or raised,
    and more fuel changes nothing.  An iteration on a valid running date
    either moves to the first day of the next month, a strictly later
    date, or, in December 9999, raises OverflowError and ends the run;
    for a valid [end_] no later than 9999-12-01 00:00 the run ends by the
    loop condition failing. *)
Theorem get_months_terminates start end_ :
  valid start = true ->
  (exists r, get_months start end_ = Some r
             /\ forall fuel, (months_fuel start <= fuel)%nat ->
                  get_months_loop fuel start end_ [] = Some r)
  /\ (forall d, valid d = true ->
        if in_last_month d then advance d = Raised OverflowError
        else exists d',
          advance d = Returned d'
          /\ valid d' = true
          /\ ltb d d' = true
          /\ day d' = 1
          /\ month_index d' = month_index d + 1)
  /\ (valid end_ = true -> ltb last_month_start end_ = false ->
      exists n,
        get_months start end_
        = Some (Returned
                  (map (fun j => label (running_date start j)) (seq 0 n)))
        /\ ltb (running_date start n) end_ = false).
Proof.
  intros Hv. split; [| split].
  3: { intros He Hlast.
       destruct (get_months_returns start end_ Hv He Hlast)
         as (n & Hrun & _ & Hstop).
       exists n. split; assumption. }
  - destruct (get_months_run start end_ Hv) as (n & _ & Hres).
    destruct Hres as [(_ & _ & Hrun) | (_ & Hrun)];
      eexists; (split; [exact Hrun |]); intros fuel Hfuel;
      rewrite get_months_loop_more_fuel by assumption; exact Hrun.
  - intros d Hd. rewrite (advance_spec d Hd).
    destruct (in_last_month d) eqn:Elast; [reflexivity |].
    destruct (valid_fields d Hd) as [(Hy & Hm & Hday) Ht].
    assert (Hi : month_index d <> MAX_MONTH_INDEX).
    { rewrite in_last_month_index in Elast by assumption.
      apply Z.eqb_neq. exact Elast. }
    assert (Hr : first_of_next_month d = running_date d 1)
      by (apply (first_of_next_month_running d 0 Hm)).
    assert (Hv' : valid (first_of_next_month d) = true).
    { rewrite Hr. apply valid_running; [assumption |].
      unfold MAX_MONTH_INDEX, month_index in *. lia. }
    assert (Hidx : month_index (first_of_next_month d) = month_index d + 1).
    { rewrite Hr, month_index_running by assumption. lia. }
    exists (first_of_next_month d). repeat split; try assumption.
    + rewrite ltb_key by assumption. apply Z.ltb_lt.
      pose proof (valid_day_le_31 d Hd).
      destruct (valid_fields _ Hv') as [(Hy' & Hm' & Hday') Ht'].
      assert (Et : (hour (first_of_next_month d),
                    minute (first_of_next_month d),
                    second (first_of_next_month d),
                    microsecond (first_of_next_month d))
                   = (hour d, minute d, second d, microsecond d)).
      { unfold first_of_next_month.
        destruct (next_year_month (year d) (month d)); reflexivity. }
      injection Et as Eh Emin Es Eus.
      assert (Eday : day (first_of_next_month d) = 1).
      { unfold first_of_next_month.
        destruct (next_year_month (year d) (month d)); reflexivity. }
      unfold key. rewrite Eh, Emin, Es, Eus, Eday.
      unfold month_index in Hidx. lia.
    + unfold first_of_next_month.
      destruct (next_year_month (year d) (month d)); reflexivity.
Qed.

End GetMonths.

(** *** The claims at concrete dates *)

Lemma get_months_labels_witness :
  let start := at_midnight 2022 1 15 in
  let end_ := at_midnight 2022 3 1 in
  exists n : nat,
    get_months start end_
    = Some (Returned (map (fun j => label (running_date start j)) (seq 0 n)))
    /\ (forall j, (j < n)%nat -> ltb (running_date start j) end_ = true)
    /\ ltb (running_date start n) end_ = false
    /\ (forall j, month_index (running_date start j)
                  = month_index start + Z.of_nat j)
    /\ (forall j, 1000 <= year (running_date start j) <= 9999 ->
                  is_date_label (label (running_date start j)) = true)
    /\ (forall j, (1 <= j)%nat \/ day start = 1 ->
                  first_of_month_label (label (running_date start j)) = true).
Proof.
  apply (get_months_labels (at_midnight 2022 1 15) (at_midnight 2022 3 1));
    reflexivity.
Defined.

(** C1, the claim as stated, fails.  From 2022-01-15 the first label is
    the start date itself, which is not the first day of its month; from
    9999-12-01 to 9999-12-31 no sequence is produced, the loop body raises
    OverflowError; and where the C library prints years in plain decimal,
    the label of a day in year 999 is not MM/DD/YYYY. *)
Lemma get_months_first_label_not_first_of_month :
  (get_months (at_midnight 2022 1 15) (at_midnight 2022 3 1)
   = Some (Returned ["01/15/2022"; "02/01/2022"]%string)
   /\ first_of_month_label "01/15/2022" = false)
  /\ get_months (at_midnight 9999 12 1) (at_midnight 9999 12 31)
     = Some (Raised OverflowError)
  /\ (get_months (CL := plain_years)
        (at_midnight 999 1 1) (at_midnight 999 1 2)
      = Some (Returned ["01/01/999"]%string)
      /\ is_date_label "01/01/999" = false).
Proof. repeat split; vm_compute; reflexivity. Qed.

Lemma advance_next_month_witness :
  let d := mkdatetime 2024 2 29 13 30 0 0 in
  exists d',
    advance d = Returned d'
    /\ valid d' = true
    /\ day d' = 1
    /\ (year d', month d') = (2024, 3)
    /\ month_index d' = month_index d + 1
    /\ (hour d', minute d', second d', microsecond d') = (13, 30, 0, 0).
Proof.
  exact (advance_next_month (mkdatetime 2024 2 29 13 30 0 0) eq_refl).
Defined.

(** C2, the claim as stated, fails in December 9999: there the step
    yields no date, it raises OverflowError. *)
Lemma advance_december_9999_raises :
  valid (at_midnight 9999 12 1) = true
  /\ advance (at_midnight 9999 12 1) = Raised OverflowError.
Proof. split; reflexivity. Qed.

Lemma get_months_errors_witness :
  let start := end_date in
  let end_ := start_date in
  (geb start end_ = true -> get_months start end_ = Some (Returned []))
  /\ (ltb last_month_start end_ = false ->
      exists months, get_months start end_ = Some (Returned months))
  /\ (forall e, get_months start end_ = Some (Raised e) ->
        e = OverflowError
        /\ ltb start end_ = true
        /\ ltb last_month_start end_ = true).
Proof.
  apply (get_months_errors end_date start_date); reflexivity.
Defined.

(** C4, the claim as stated, fails: [get_months] has an error condition.
    From 9999-12-01 to 9999-12-31 the loop body raises OverflowError. *)
Lemma get_months_december_9999_raises :
  valid (at_midnight 9999 12 1) = true
  /\ valid (at_midnight 9999 12 31) = true
  /\ get_months (at_midnight 9999 12 1) (at_midnight 9999 12 31)
     = Some (Raised OverflowError).
Proof. repeat split; vm_compute; reflexivity. Qed.

Lemma get_months_terminates_witness :
  (exists r, get_months start_date end_date = Some r
             /\ forall fuel, (months_fuel start_date <= fuel)%nat ->
                  get_months_loop fuel start_date end_date [] = Some r)
  /\ (forall d, valid d = true ->
        if in_last_month d then advance d = Raised OverflowError
        else exists d',
          advance d = Returned d'
          /\ valid d' = true
          /\ ltb d d' = true
          /\ day d' = 1
          /\ month_index d' = month_index d + 1)
  /\ (valid end_date = true -> ltb last_month_start end_date = false ->
      exists n,
        get_months start_date end_date
        = Some (Returned
                  (map (fun j => label (running_date start_date j))
                     (seq 0 n)))
        /\ ltb (running_date start_date n) end_date = false).
Proof.
  exact (get_months_terminates start_date end_date eq_refl).
Defined.

(** C10, the claim as stated, fails in December 9999: the running date
    9999-12-01 is below the end 9999-12-31, the iteration does not advance
    it but raises, and [current < end] never fails. *)
Lemma get_months_last_iteration_raises :
  ltb (at_midnight 9999 12 1) (at_midnight 9999 12 31) = true
  /\ advance (at_midnight 9999 12 1) = Raised OverflowError
  /\ get_months_loop 1 (at_midnight 9999 12 1) (at_midnight 9999 12 31) []
     = Some (Raised OverflowError).
Proof. repeat split; vm_compute; reflexivity. Qed.

(** ** Rounding to a double stays between representable bounds *)

Section FloatBounds.

Local Open Scope Q_scope.

Lemma pow2_pos e : 0 < pow2 e.
Proof. apply Qpower_0_lt. reflexivity. Qed.

Lemma pow2_add a b : pow2 (a + b) == pow2 a * pow2 b.
Proof. apply Qpower_plus. discriminate. Qed.

Lemma pow2_le a b : (a <= b)%Z -> pow2 a <= pow2 b.
Proof. intros H. apply Qpower_le_compat_l; [exact H | discriminate]. Qed.

Lemma pow2_inject n : (0 <= n)%Z -> pow2 n == inject_Z (2 ^ n).
Proof. intros H. unfold pow2. rewrite Zpower_Qpower by exact H. reflexivity. Qed.

Lemma div_pow2 q e : q / pow2 e == q * pow2 (- e).
Proof.
  unfold Qdiv. apply Qmult_comp; [reflexivity |].
  unfold pow2. rewrite Qpower_opp. reflexivity.
Qed.

Lemma round_half_even_floor q :
  (Qfloor q <= round_half_even q <= Qfloor q + 1)%Z.
Proof.
  unfold round_half_even.
  destruct (q - inject_Z (Qfloor q) ?= 1 # 2); [| lia | lia].
  destruct (Z.even (Qfloor q)); lia.
Qed.

Lemma round_half_even_ge K q :
  inject_Z K <= q -> (K <= round_half_even q)%Z.
Proof.
  intros H. apply Qfloor_resp_le in H. rewrite Qfloor_Z in H.
  pose proof (round_half_even_floor q). lia.
Qed.

Lemma round_half_even_le K q :
  q <= inject_Z K -> (round_half_even q <= K)%Z.
Proof.
  intros H.
  assert (Hf : (Qfloor q <= K)%Z).
  { apply Qfloor_resp_le in H. rewrite Qfloor_Z in H. exact H. }
  unfold round_half_even.
  assert (Hup : inject_Z (Qfloor q) < q -> (Qfloor q + 1 <= K)%Z).
  { intros Hlt.
    assert (Hlt' : inject_Z (Qfloor q) < inject_Z K)
      by (eapply Qlt_le_trans; eassumption).
    rewrite <- Zlt_Qlt in Hlt'. lia. }
  destruct (Qcompare_spec (q - inject_Z (Qfloor q)) (1 # 2)) as [E | E | E].
  - destruct (Z.even (Qfloor q)); [exact Hf |].
    apply Hup. apply (Qplus_lt_l _ _ (- inject_Z (Qfloor q))).
    rewrite Qplus_opp_r. unfold Qminus in E. rewrite E. reflexivity.
  - exact Hf.
  - apply Hup. apply (Qplus_lt_l _ _ (- inject_Z (Qfloor q))).
    rewrite Qplus_opp_r. unfold Qminus in E.
    eapply Qlt_trans; [| exact E]. reflexivity.
Qed.

Lemma pow2_sub a b : pow2 (a - b) == pow2 a / pow2 b.
Proof. apply Qpower_minus. discriminate. Qed.

Lemma cross_le x y z w :
  0 < y -> 0 < w -> x * w <= z * y -> x / y <= z / w.
Proof.
  intros Hy Hw H. apply Qle_shift_div_l; [exact Hw |].
  unfold Qdiv. rewrite <- Qmult_assoc, (Qmult_comm (/ y)), Qmult_assoc.
  apply Qle_shift_div_r; assumption.
Qed.

Lemma cross_lt x y z w :
  0 < y -> 0 < w -> x * w < z * y -> x / y < z / w.
Proof.
  intros Hy Hw H. apply Qlt_shift_div_l; [exact Hw |].
  unfold Qdiv. rewrite <- Qmult_assoc, (Qmult_comm (/ y)), Qmult_assoc.
  apply Qlt_shift_div_r; assumption.
Qed.

(** [ilog2] is the floor of the binary logarithm. *)
Lemma ilog2_spec q :
  0 < q -> pow2 (ilog2 q) <= q /\ q < pow2 (ilog2 q + 1).
Proof.
  intros Hq. destruct q as [n d].
  assert (Hn : (0 < n)%Z).
  { unfold Qlt in Hq. simpl in Hq. lia. }
  unfold ilog2. cbn [Qnum Qden].
  set (a := Z.log2 n). set (b := Z.log2 (Z.pos d)).
  assert (Ha : (0 <= a)%Z) by apply Z.log2_nonneg.
  assert (Hb : (0 <= b)%Z) by apply Z.log2_nonneg.
  destruct (Z.log2_spec n Hn) as [Hn1 Hn2]. fold a in Hn1, Hn2.
  destruct (Z.log2_spec (Z.pos d) ltac:(lia)) as [Hd1 Hd2].
  fold b in Hd1, Hd2.
  replace (Z.succ a) with (a + 1)%Z in Hn2 by lia.
  replace (Z.succ b) with (b + 1)%Z in Hd2 by lia.
  assert (Eq : n # d == inject_Z n / inject_Z (Z.pos d)).
  { rewrite (Qmake_Qdiv n d). reflexivity. }
  assert (Hdpos : 0 < inject_Z (Z.pos d)) by reflexivity.
  (* [2^(a-b-1) <= n/d < 2^(a-b+1)] *)
  assert (Hlow : pow2 (a - b - 1) <= n # d).
  { rewrite Eq. replace (a - b - 1)%Z with (a - (b + 1))%Z by lia.
    rewrite pow2_sub.
    apply cross_le; [apply pow2_pos | exact Hdpos |].
    rewrite !pow2_inject by lia. rewrite <- !inject_Z_mult.
    rewrite <- Zle_Qle. nia. }
  assert (Hhigh : n # d < pow2 (a - b + 1)).
  { rewrite Eq. replace (a - b + 1)%Z with ((a + 1) - b)%Z by lia.
    rewrite pow2_sub.
    apply cross_lt; [exact Hdpos | apply pow2_pos |].
    rewrite !pow2_inject by lia. rewrite <- !inject_Z_mult.
    rewrite <- Zlt_Qlt. nia. }
  destruct (Qle_bool (pow2 (a - b)) (n # d)) eqn:Ele.
  - apply Qle_bool_iff in Ele. split; assumption.
  - split; [exact Hlow |].
    replace (a - b - 1 + 1)%Z with (a - b)%Z by lia.
    apply Qnot_le_lt. intros Hle. apply Qle_bool_iff in Hle. congruence.
Qed.

Lemma round_to_double_pos q :
  0 < q ->
  round_to_double q
  == inject_Z (round_half_even
                 (q / pow2 (Z.max (ilog2 q - 52) (-1074))))
     * pow2 (Z.max (ilog2 q - 52) (-1074)).
Proof.
  intros Hq. unfold round_to_double.
  destruct (Qeq_bool q 0) eqn:E0.
  - apply Qeq_bool_iff in E0. rewrite E0 in Hq. discriminate Hq.
  - rewrite Qred_correct. destruct q as [n d].
    assert (Hn : (0 < n)%Z) by (unfold Qlt in Hq; simpl in Hq; lia).
    destruct n as [| p | p]; try lia. reflexivity.
Qed.

Lemma scaled_integer m e E :
  (E <= e)%Z ->
  inject_Z m * pow2 e == inject_Z (m * 2 ^ (e - E)) * pow2 E.
Proof.
  intros H. rewrite inject_Z_mult, <- pow2_inject by lia.
  rewrite <- Qmult_assoc, <- pow2_add.
  replace (e - E + E)%Z with e by lia. reflexivity.
Qed.

(** Rounding does not cross a double: at or below one it stays there. *)
Lemma round_to_double_le q m e :
  0 < q -> (0 < m < 2 ^ 53)%Z -> (-1074 <= e)%Z ->
  q <= inject_Z m * pow2 e ->
  round_to_double q <= inject_Z m * pow2 e.
Proof.
  intros Hq Hm He Hle. rewrite (round_to_double_pos q Hq).
  set (E := Z.max (ilog2 q - 52) (-1074)).
  destruct (Z.le_gt_cases E e) as [HE | HE].
  - rewrite (scaled_integer m e E HE) in *.
    apply Qmult_le_compat_r; [| apply Qlt_le_weak, pow2_pos].
    rewrite <- Zle_Qle. apply round_half_even_le.
    apply Qle_shift_div_r; [apply pow2_pos | exact Hle].
  - exfalso.
    assert (EE : E = (ilog2 q - 52)%Z) by (unfold E in *; lia).
    destruct (ilog2_spec q Hq) as [Hlow _].
    assert (Hlt : inject_Z m * pow2 e < pow2 (ilog2 q)).
    { apply Qlt_le_trans with (pow2 53 * pow2 e).
      - apply Qmult_lt_compat_r; [apply pow2_pos |].
        rewrite pow2_inject by lia. rewrite <- Zlt_Qlt. lia.
      - rewrite <- pow2_add. apply pow2_le. lia. }
    apply (Qlt_irrefl q).
    eapply Qle_lt_trans; [exact Hle |].
    eapply Qlt_le_trans; [exact Hlt | exact Hlow].
Qed.

(** At or above a double it stays there. *)
Lemma round_to_double_ge q m e :
  (0 < m < 2 ^ 53)%Z -> (-1074 <= e)%Z ->
  inject_Z m * pow2 e <= q ->
  inject_Z m * pow2 e <= round_to_double q.
Proof.
  intros Hm He Hle.
  assert (Hq : 0 < q).
  { eapply Qlt_le_trans; [| exact Hle].
    apply Qmult_lt_0_compat; [| apply pow2_pos].
    replace 0 with (inject_Z 0) by reflexivity. rewrite <- Zlt_Qlt. lia. }
  rewrite (round_to_double_pos q Hq).
  set (E := Z.max (ilog2 q - 52) (-1074)).
  destruct (Z.le_gt_cases E e) as [HE | HE].
  - rewrite (scaled_integer m e E HE) in *.
    apply Qmult_le_compat_r; [| apply Qlt_le_weak, pow2_pos].
    rewrite <- Zle_Qle. apply round_half_even_ge.
    apply Qle_shift_div_l; [apply pow2_pos | exact Hle].
  - assert (EE : E = (ilog2 q - 52)%Z) by (unfold E in *; lia).
    destruct (ilog2_spec q Hq) as [Hlow _].
    apply Qle_trans with (pow2 52 * pow2 E).
    + apply Qlt_le_weak.
      apply Qlt_le_trans with (pow2 53 * pow2 e).
      * apply Qmult_lt_compat_r; [apply pow2_pos |].
        rewrite pow2_inject by lia. rewrite <- Zlt_Qlt. lia.
      * rewrite <- !pow2_add. apply pow2_le. lia.
    + apply Qmult_le_compat_r; [| apply Qlt_le_weak, pow2_pos].
      rewrite pow2_inject by lia. rewrite <- Zle_Qle.
      apply round_half_even_ge. rewrite <- pow2_inject by lia.
      apply Qle_shift_div_l; [apply pow2_pos |].
      rewrite <- pow2_add. rewrite EE.
      replace (52 + (ilog2 q - 52))%Z with (ilog2 q) by lia. exact Hlow.
Qed.

Lemma round_to_double_nonneg q : 0 <= q -> 0 <= round_to_double q.
Proof.
  intros Hq. destruct (Qeq_bool q 0) eqn:E0.
  - unfold round_to_double. rewrite E0. apply Qle_refl.
  - assert (Hpos : 0 < q).
    { apply Qle_lteq in Hq. destruct Hq as [Hq | Hq]; [exact Hq |].
      apply Qeq_bool_neq in E0. symmetry in Hq. contradiction. }
    rewrite (round_to_double_pos q Hpos).
    apply Qmult_le_0_compat; [| apply Qlt_le_weak, pow2_pos].
    replace 0 with (inject_Z 0) by reflexivity. rewrite <- Zle_Qle.
    apply round_half_even_ge. apply Qle_shift_div_l; [apply pow2_pos |].
    rewrite Qmult_0_l. exact Hq.
Qed.

End FloatBounds.

(** ** The row synthesizer *)

Section Rows.

Context {G : Type} {RS : RandomSource G}.

Local Open Scope Q_scope.

Lemma make_row_spec month product g :
  exists r g',
    make_row month product g = Returned (r, g')
    /\ month_year r = month /\ product_name r = product /\ drawn_row r.
Proof.
  unfold make_row, rbind, uniform, random, randint, ret, rbind.
  pose proof (genrand_res53_range g) as Hk.
  destruct (genrand_res53 g) as [k g1]. cbn [fst] in Hk.
  change (0 <? 500 + 1 - 50)%Z with true. cbv iota.
  change (500 + 1 - 50)%Z with 451%Z.
  pose proof (randbelow_range 451 g1 eq_refl) as Hj.
  destruct (randbelow 451 g1) as [j g2]. cbn [fst] in Hj.
  eexists. exists g2. split; [reflexivity |].
  cbn [month_year product_name]. split; [reflexivity |].
  split; [reflexivity |].
  unfold drawn_row. cbn [unit_price quantity sales_amount].
  split; [exists k; split; [exact Hk | reflexivity] |].
  split; [exists j; split; [exact Hj | reflexivity] |].
  reflexivity.
Qed.

Lemma for_products_spec month ps :
  forall data g,
  exists rows g',
    for_products month ps data g = Returned ((data ++ rows)%list, g')
    /\ map month_year rows = map (fun _ => month) ps
    /\ map product_name rows = ps
    /\ Forall drawn_row rows.
Proof.
  induction ps as [| p ps IH]; intros data g.
  - exists [], g. cbn. rewrite app_nil_r. auto.
  - cbn [for_products]. unfold rbind at 1.
    destruct (make_row_spec month p g) as (r & g1 & -> & Hm & Hp & Hr).
    destruct (IH (data ++ [r])%list g1) as (rows & g' & -> & Hms & Hps & Hrs).
    exists (r :: rows), g'. rewrite <- app_assoc. cbn [app map].
    rewrite Hm, Hp, Hms, Hps. auto.
Qed.

Lemma for_months_spec ms ps :
  forall data g,
  exists rows g',
    for_months ms ps data g = Returned ((data ++ rows)%list, g')
    /\ map row_key rows = list_prod ms ps
    /\ Forall drawn_row rows.
Proof.
  induction ms as [| m ms IH]; intros data g.
  - exists [], g. cbn. rewrite app_nil_r. auto.
  - cbn [for_months]. unfold rbind at 1.
    destruct (for_products_spec m ps data g)
      as (rows1 & g1 & -> & Hms & Hps & Hrs1).
    destruct (IH (data ++ rows1)%list g1) as (rows2 & g' & -> & Hkeys & Hrs2).
    exists (rows1 ++ rows2)%list, g'. rewrite <- app_assoc.
    split; [reflexivity |]. split; [| apply Forall_app; auto].
    rewrite map_app, Hkeys. cbn [list_prod]. f_equal.
    clear - Hms Hps. revert ps Hms Hps.
    induction rows1 as [| r rows1 IHr]; intros [| p ps] Hms Hps;
      try discriminate; [reflexivity |].
    cbn [map] in *. injection Hms as Hm Hms. injection Hps as Hp Hps.
    unfold row_key at 1. rewrite Hm, Hp. f_equal. apply IHr; assumption.
Qed.

(** [generate_data] always returns, rows in month-major order, each
    built from its own two draws. *)
Lemma generate_data_spec months g :
  exists data g',
    generate_data months g = Returned (data, g')
    /\ map row_key data = list_prod months products
    /\ Forall drawn_row data.
Proof.
  unfold generate_data.
  destruct (for_months_spec months products [] g) as (rows & g' & H & Hk & Hr).
  exists rows, g'. auto.
Qed.

End Rows.

Section RowBounds.

Local Open Scope Q_scope.

Lemma inject_Z_pow2_0 m : inject_Z m == inject_Z m * pow2 0.
Proof. unfold pow2. cbn. rewrite Qmult_1_r. reflexivity. Qed.

(** Rounding keeps a value between two whole numbers below [2^53]. *)
Lemma round_to_double_between lo hi q :
  (0 < lo)%Z -> (lo <= hi)%Z -> (hi < 2 ^ 53)%Z ->
  inject_Z lo <= q <= inject_Z hi ->
  inject_Z lo <= round_to_double q <= inject_Z hi.
Proof.
  intros Hlo Hlh Hhi [H1 H2].
  assert (Hq : 0 < q).
  { eapply Qlt_le_trans; [| exact H1].
    replace 0 with (inject_Z 0) by reflexivity. rewrite <- Zlt_Qlt. exact Hlo. }
  split.
  - rewrite (inject_Z_pow2_0 lo) in *.
    apply round_to_double_ge; [lia | lia | exact H1].
  - rewrite (inject_Z_pow2_0 hi) in *.
    apply round_to_double_le; [exact Hq | lia | lia | exact H2].
Qed.

Lemma round_to_double_upto hi q :
  (0 < hi < 2 ^ 53)%Z ->
  0 <= q <= inject_Z hi ->
  0 <= round_to_double q <= inject_Z hi.
Proof.
  intros Hhi [H1 H2]. split; [apply round_to_double_nonneg; exact H1 |].
  destruct (Qeq_bool q 0) eqn:E0.
  - unfold round_to_double. rewrite E0.
    replace 0 with (inject_Z 0) by reflexivity. rewrite <- Zle_Qle. lia.
  - assert (Hq : 0 < q).
    { apply Qle_lteq in H1. destruct H1 as [H1 | H1]; [exact H1 |].
      apply Qeq_bool_neq in E0. symmetry in H1. contradiction. }
    rewrite (inject_Z_pow2_0 hi) in *.
    apply round_to_double_le; [exact Hq | lia | lia | exact H2].
Qed.

(** [round(x, 2)] keeps a value between two whole numbers. *)
Lemma round_ndigits_2_between lo hi x :
  (0 < lo)%Z -> (lo <= hi)%Z -> (hi < 2 ^ 53)%Z ->
  inject_Z lo <= x <= inject_Z hi ->
  inject_Z lo <= round_ndigits x 2 <= inject_Z hi
  /\ exists n, (lo * 100 <= n <= hi * 100)%Z
               /\ round_ndigits x 2 = round_to_double (inject_Z n / 100).
Proof.
  intros Hlo Hlh Hhi [H1 H2]. unfold round_ndigits.
  change (pow10 2) with 100.
  set (n := round_half_even (x * 100)).
  assert (Hn : (lo * 100 <= n <= hi * 100)%Z).
  { unfold n. split.
    - apply round_half_even_ge. rewrite inject_Z_mult.
      apply Qmult_le_compat_r; [exact H1 | discriminate].
    - apply round_half_even_le. rewrite inject_Z_mult.
      apply Qmult_le_compat_r; [exact H2 | discriminate]. }
  split; [| exists n; split; [exact Hn | reflexivity]].
  apply round_to_double_between; try assumption. split.
  - apply Qle_shift_div_l; [reflexivity |].
    change 100 with (inject_Z 100). rewrite <- inject_Z_mult.
    rewrite <- Zle_Qle. lia.
  - apply Qle_shift_div_r; [reflexivity |].
    change 100 with (inject_Z 100). rewrite <- inject_Z_mult.
    rewrite <- Zle_Qle. lia.
Qed.

Lemma of_int_between lo :
  (0 < lo < 2 ^ 53)%Z -> of_int lo == inject_Z lo.
Proof.
  intros H. unfold of_int. apply Qle_antisym.
  - apply (round_to_double_between lo lo); try lia. split; apply Qle_refl.
  - apply (round_to_double_between lo lo); try lia. split; apply Qle_refl.
Qed.

(** [uniform(5, 50)] lies in [5, 50], whatever the 53 bits. *)
Lemma uniform_5_50_range k :
  (0 <= k < 2 ^ 53)%Z -> 5 <= uniform_5_50 k <= 50.
Proof.
  intros Hk. unfold uniform_5_50, add, mul.
  change (of_int 5) with 5. change (of_int 45) with 45.
  set (u := inject_Z k / inject_Z (2 ^ 53)).
  assert (Hu : 0 <= u <= 1).
  { unfold u. split.
    - apply Qle_shift_div_l; [reflexivity |]. rewrite Qmult_0_l.
      replace 0 with (inject_Z 0) by reflexivity. rewrite <- Zle_Qle. lia.
    - apply Qle_shift_div_r; [reflexivity |]. rewrite Qmult_1_l.
      rewrite <- Zle_Qle. lia. }
  assert (Hv : 0 <= round_to_double (45 * u) <= 45).
  { apply (round_to_double_upto 45); [lia |]. split.
    - apply Qmult_le_0_compat; [discriminate | apply Hu].
    - rewrite <- (Qmult_1_r (inject_Z 45)). change (inject_Z 45) with 45.
      apply Qmult_le_l; [reflexivity | apply Hu]. }
  apply (round_to_double_between 5 50); try lia. split.
  - change (inject_Z 5) with (5 + 0). apply Qplus_le_r. apply Hv.
  - change (inject_Z 50) with (5 + 45). apply Qplus_le_r. apply Hv.
Qed.

(** The ranges of a drawn row's three numbers, and the two decimals of
    its unit price. *)
Lemma drawn_row_ranges r :
  drawn_row r ->
  (5 <= unit_price r <= 50
   /\ exists n, (500 <= n <= 5000)%Z
                /\ unit_price r = round_to_double (inject_Z n / 100))
  /\ (50 <= quantity r <= 500)%Z
  /\ 250 <= sales_amount r <= 25000.
Proof.
  intros ((k & Hk & Hup) & (j & Hj & Hq) & Hs).
  assert (Hprice : 5 <= unit_price r <= 50
                   /\ exists n, (500 <= n <= 5000)%Z
                        /\ unit_price r = round_to_double (inject_Z n / 100)).
  { rewrite Hup.
    apply (round_ndigits_2_between 5 50); try lia.
    apply uniform_5_50_range. exact Hk. }
  assert (Hquant : (50 <= quantity r <= 500)%Z) by lia.
  split; [exact Hprice |]. split; [exact Hquant |].
  rewrite Hs. apply (round_ndigits_2_between 250 25000); try lia.
  unfold mul. apply (round_to_double_between 250 25000); try lia.
  rewrite (of_int_between (quantity r)) by lia.
  destruct Hprice as [[Hp1 Hp2] _]. split.
  - change (inject_Z 250) with (5 * inject_Z 50).
    apply Qle_trans with (5 * inject_Z (quantity r)).
    + apply Qmult_le_l; [reflexivity |]. rewrite <- Zle_Qle. lia.
    + apply Qmult_le_compat_r; [exact Hp1 |].
      replace 0 with (inject_Z 0) by reflexivity. rewrite <- Zle_Qle. lia.
  - change (inject_Z 25000) with (50 * inject_Z 500).
    apply Qle_trans with (50 * inject_Z (quantity r)).
    + apply Qmult_le_compat_r; [exact Hp2 |].
      replace 0 with (inject_Z 0) by reflexivity. rewrite <- Zle_Qle. lia.
    + apply Qmult_le_l; [reflexivity |]. rewrite <- Zle_Qle. lia.
Qed.

End RowBounds.

(** ** The CSV file *)

Section Csv.

Local Open Scope string_scope.

Lemma needs_quotes_app a b :
  needs_quotes (a ++ b) = needs_quotes a || needs_quotes b.
Proof.
  induction a as [| c a IH]; [reflexivity |].
  cbn [append needs_quotes]. rewrite IH, orb_assoc. reflexivity.
Qed.

Lemma needs_quotes_substring s :
  needs_quotes s = false ->
  forall n m, needs_quotes (substring n m s) = false.
Proof.
  induction s as [| c s IH]; intros H n m.
  - destruct n, m; reflexivity.
  - cbn [needs_quotes] in H. apply orb_false_iff in H. destruct H as [Hc Hs].
    destruct n as [| n]; destruct m as [| m]; cbn [substring needs_quotes];
      try reflexivity; try (apply IH; exact Hs).
    rewrite Hc. apply IH. exact Hs.
Qed.

Lemma needs_quotes_string_of_uint d :
  needs_quotes (NilEmpty.string_of_uint d) = false.
Proof. induction d; cbn [NilEmpty.string_of_uint needs_quotes]; auto. Qed.

Lemma needs_quotes_str_int n : needs_quotes (str_int n) = false.
Proof.
  unfold str_int, NilZero.string_of_int.
  destruct (Z.to_int n) as [d | d]; unfold NilZero.string_of_uint;
    destruct d; try reflexivity;
    try (cbn [needs_quotes]; apply needs_quotes_string_of_uint);
    apply (needs_quotes_string_of_uint (_ _)).
Qed.

Lemma needs_quotes_zeros n : needs_quotes (zeros n) = false.
Proof. induction n; cbn [zeros needs_quotes]; auto. Qed.

Lemma special_digit_char n : special (digit_char n) = false.
Proof.
  pose proof (digit_char_cases n) as H. cbn [In] in H.
  repeat (destruct H as [<- | H]; [reflexivity |]). contradiction.
Qed.

Lemma needs_quotes_zero_padded w :
  forall n, needs_quotes (zero_padded w n) = false.
Proof.
  induction w as [| w IH]; intros n; [reflexivity |].
  cbn [zero_padded]. rewrite needs_quotes_app, IH.
  cbn [needs_quotes]. rewrite special_digit_char. reflexivity.
Qed.

Lemma needs_quotes_strip_zeros s :
  needs_quotes s = false -> needs_quotes (strip_zeros s) = false.
Proof.
  induction s as [| c s IH]; intros H; [reflexivity |].
  cbn [needs_quotes] in H. apply orb_false_iff in H. destruct H as [Hc Hs].
  cbn [strip_zeros]. specialize (IH Hs).
  destruct (strip_zeros s) as [| c' s'].
  - destruct (c =? "0")%char; [reflexivity |].
    cbn [needs_quotes]. rewrite Hc. reflexivity.
  - cbn [needs_quotes] in *. rewrite Hc. exact IH.
Qed.

Lemma needs_quotes_strip_trailing_zeros s :
  needs_quotes s = false -> needs_quotes (strip_trailing_zeros s) = false.
Proof.
  destruct s as [| c s]; intros H; [reflexivity |].
  cbn [needs_quotes] in H. apply orb_false_iff in H. destruct H as [Hc Hs].
  cbn [strip_trailing_zeros needs_quotes].
  rewrite Hc, needs_quotes_strip_zeros by exact Hs. reflexivity.
Qed.

(** [repr] of a float holds no comma, quote or line break. *)
Lemma needs_quotes_float_repr x : needs_quotes (float_repr x) = false.
Proof.
  unfold float_repr. destruct (Qeq_bool x 0); [reflexivity |].
  destruct (shortest (Qabs x) (ilog10 (Qabs x)) precisions) as [n p].
  cbv zeta.
  pose proof (needs_quotes_strip_trailing_zeros (str_int n)
                (needs_quotes_str_int n)) as Hd.
  set (digits := strip_trailing_zeros (str_int n)) in *.
  rewrite needs_quotes_app. apply orb_false_iff. split.
  { destruct (x ?= 0)%Q; reflexivity. }
  repeat match goal with
  | |- context [if ?b then _ else _] => destruct b
  end;
  repeat rewrite needs_quotes_app;
  repeat rewrite (needs_quotes_substring digits Hd);
  repeat rewrite Hd;
  repeat rewrite needs_quotes_zeros;
  repeat rewrite needs_quotes_zero_padded;
  repeat rewrite needs_quotes_str_int;
  reflexivity.
Qed.

Lemma field_text_plain s : needs_quotes s = false -> field_text s = s.
Proof. intros H. unfold field_text. rewrite H. reflexivity. Qed.

Lemma no_newline_plain s : needs_quotes s = false -> no_newline s = true.
Proof.
  induction s as [| c s IH]; intros H; [reflexivity |].
  cbn [needs_quotes] in H. apply orb_false_iff in H. destruct H as [Hc Hs].
  cbn [no_newline]. rewrite (IH Hs), andb_true_r.
  unfold special in Hc. rewrite !orb_false_iff in Hc.
  destruct Hc as [[[_ _] Hcr] Hlf]. rewrite Hcr, Hlf. reflexivity.
Qed.

Lemma no_newline_app a b : no_newline (a ++ b) = no_newline a && no_newline b.
Proof.
  induction a as [| c a IH]; [reflexivity |].
  cbn [append no_newline]. rewrite IH, !andb_assoc. reflexivity.
Qed.

Lemma no_newline_join fields :
  Forall (fun f => needs_quotes f = false) fields ->
  no_newline (join comma fields) = true.
Proof.
  induction 1 as [| f fields Hf Hfs IH]; [reflexivity |].
  destruct fields as [| f' fields'].
  - cbn [join]. apply no_newline_plain. exact Hf.
  - change (join comma (f :: f' :: fields'))
      with (f ++ String comma (join comma (f' :: fields'))).
    rewrite no_newline_app, (no_newline_plain f Hf).
    cbn [no_newline andb]. rewrite IH. reflexivity.
Qed.

(** A record with no line break in it, then its terminator, is one
    line. *)
Lemma lines_from_record record :
  no_newline record = true ->
  forall current rest,
    lines_from current (record ++ lineterminator ++ rest)
    = (current ++ record) :: lines_from EmptyString rest.
Proof.
  induction record as [| c record IH]; intros H current rest.
  - cbn. rewrite append_nil_r. reflexivity.
  - cbn [no_newline] in H. rewrite !andb_true_iff, !negb_true_iff in H.
    destruct H as [[Hcr Hlf] Hr].
    change ((String c record) ++ lineterminator ++ rest)
      with (String c (record ++ lineterminator ++ rest)).
    cbn [lines_from]. rewrite Hcr, Hlf, IH by exact Hr.
    rewrite append_assoc. reflexivity.
Qed.

Lemma lines_records records :
  Forall (fun r => no_newline r = true) records ->
  lines (String.concat EmptyString
           (map (fun r => r ++ lineterminator) records))
  = records.
Proof.
  unfold lines. induction 1 as [| r records Hr Hrs IH]; [reflexivity |].
  cbn [map]. destruct records as [| r' records'].
  - cbn [map String.concat].
    rewrite <- (append_nil_r (r ++ lineterminator)), append_assoc.
    rewrite lines_from_record by exact Hr. reflexivity.
  - change (String.concat EmptyString
              ((r ++ lineterminator)
               :: map (fun r0 => r0 ++ lineterminator) (r' :: records')))
      with ((r ++ lineterminator)
            ++ String.concat EmptyString
                 (map (fun r0 => r0 ++ lineterminator) (r' :: records'))).
    rewrite append_assoc.
    rewrite lines_from_record by exact Hr. cbn [append].
    rewrite IH. reflexivity.
Qed.

End Csv.

(** ** The dataset and the file: results *)

Section Dataset.

Context {CL : CLibrary} {G : Type} {RS : RandomSource G}.

(** The script returns the data of [generate_data] on the 36 months,
    and the text of the file written from it. *)
Lemma script_data g :
  exists data g',
    generate_data months_2022_2024 g = Returned (data, g')
    /\ script g = Some (Returned (data, csv_text data))
    /\ map row_key data = list_prod months_2022_2024 products
    /\ Forall drawn_row data.
Proof.
  destruct (generate_data_spec months_2022_2024 g)
    as (data & g' & Hrun & Hkeys & Hrows).
  exists data, g'. unfold script. rewrite get_months_script, Hrun. auto.
Qed.

(** C5. Every row of [data], for any list of months and any random
    source, and so every row the script writes, stores as its sales amount
    [round(unit_price * quantity, 2)] of the unit price and quantity stored
    in that same row. *)
Theorem sales_amount_is_rounded_product :
  (forall months g,
     exists data g',
       generate_data months g = Returned (data, g')
       /\ Forall (fun r =>
                    sales_amount r
                    = round_ndigits
                        (mul (unit_price r) (of_int (quantity r))) 2)
            data)
  /\ (forall g,
        exists data,
          script g = Some (Returned (data, csv_text data))
          /\ Forall (fun r =>
                       sales_amount r
                       = round_ndigits
                           (mul (unit_price r) (of_int (quantity r))) 2)
               data).
Proof.
  split.
  - intros months g.
    destruct (generate_data_spec months g) as (data & g' & Hrun & _ & Hrows).
    exists data, g'. split; [exact Hrun |].
    eapply Forall_impl; [| exact Hrows]. intros r (_ & _ & Hs). exact Hs.
  - intros g. destruct (script_data g) as (data & g' & _ & Hrun & _ & Hrows).
    exists data. split; [exact Hrun |].
    eapply Forall_impl; [| exact Hrows]. intros r (_ & _ & Hs). exact Hs.
Qed.

(** C6. In every row, the unit price is [round(uniform(5, 50), 2)] of
    some 53 random bits, a double nearest to a two-decimal number, and
    lies in [5.00, 50.00]; the quantity is an integer in [50, 500]. *)
Theorem unit_price_and_quantity_ranges :
  (forall months g,
     exists data g',
       generate_data months g = Returned (data, g')
       /\ Forall (fun r =>
                    (5 <= unit_price r <= 50)%Q
                    /\ (exists k, 0 <= k < 2 ^ 53
                          /\ unit_price r
                             = round_ndigits (uniform_5_50 k) 2)
                    /\ (exists n, 500 <= n <= 5000
                          /\ unit_price r
                             = round_to_double (inject_Z n / 100))
                    /\ 50 <= quantity r <= 500)
            data)
  /\ (forall g,
        exists data,
          script g = Some (Returned (data, csv_text data))
          /\ Forall (fun r =>
                       (5 <= unit_price r <= 50)%Q
                       /\ 50 <= quantity r <= 500)
               data).
Proof.
  split.
  - intros months g.
    destruct (generate_data_spec months g) as (data & g' & Hrun & _ & Hrows).
    exists data, g'. split; [exact Hrun |].
    eapply Forall_impl; [| exact Hrows]. intros r Hr.
    destruct (drawn_row_ranges r Hr) as ((Hp & Hn) & Hq & _).
    destruct Hr as (Hk & _). auto.
  - intros g. destruct (script_data g) as (data & g' & _ & Hrun & _ & Hrows).
    exists data. split; [exact Hrun |].
    eapply Forall_impl; [| exact Hrows]. intros r Hr.
    destruct (drawn_row_ranges r Hr) as ((Hp & _) & Hq & _). auto.
Qed.

End Dataset.

Section Shape.

Lemma products_eq :
  products
  = ["Product 1"; "Product 2"; "Product 3"; "Product 4"; "Product 5";
     "Product 6"; "Product 7"; "Product 8"; "Product 9"; "Product 10";
     "Product 11"; "Product 12"; "Product 13"; "Product 14";
     "Product 15"]%string.
Proof. reflexivity. Qed.

Lemma NoDup_map_pair {A B : Type} (a : A) (l : list B) :
  NoDup l -> NoDup (map (fun y => (a, y)) l).
Proof.
  induction 1 as [| b l Hb Hl IH]; cbn [map]; constructor; [| exact IH].
  intros Hin. apply in_map_iff in Hin. destruct Hin as (y & E & Hy).
  injection E as ->. contradiction.
Qed.

Lemma NoDup_list_prod {A B : Type} (l : list A) (l' : list B) :
  NoDup l -> NoDup l' -> NoDup (list_prod l l').
Proof.
  intros Hl Hl'. induction Hl as [| a l Ha Hl IH]; [constructor |].
  cbn [list_prod]. apply NoDup_app.
  - apply NoDup_map_pair. exact Hl'.
  - exact IH.
  - intros [x y] Hin Hin'. apply in_map_iff in Hin.
    destruct Hin as (b & E & _). injection E as <- <-.
    apply in_prod_iff in Hin'. destruct Hin' as [Hin' _]. contradiction.
Qed.

Lemma NoDup_by_nodup (l : list string) :
  nodup string_dec l = l -> NoDup l.
Proof. intros E. rewrite <- E. apply NoDup_nodup. Qed.

Lemma NoDup_products : NoDup products.
Proof. apply NoDup_by_nodup. vm_compute. reflexivity. Qed.

Lemma NoDup_months_2022_2024 : NoDup months_2022_2024.
Proof. apply NoDup_by_nodup. vm_compute. reflexivity. Qed.

Lemma length_keys (data : list row) (months : list string) :
  map row_key data = list_prod months products ->
  List.length data = (List.length months * 15)%nat.
Proof.
  intros E. rewrite <- (length_map row_key), E, length_prod. reflexivity.
Qed.

Context {CL : CLibrary} {G : Type} {RS : RandomSource G}.

(** C7. [data] holds exactly one row per (month, product) pair, in the
    order of the nested loops: months outside, the 15 products "Product 1"
    to "Product 15" inside.  Its length is the number of months times 15:
    540 rows for the script's 36 months. *)
Theorem one_row_per_month_and_product :
  products
  = ["Product 1"; "Product 2"; "Product 3"; "Product 4"; "Product 5";
     "Product 6"; "Product 7"; "Product 8"; "Product 9"; "Product 10";
     "Product 11"; "Product 12"; "Product 13"; "Product 14";
     "Product 15"]%string
  /\ (forall months g,
        exists data g',
          generate_data months g = Returned (data, g')
          /\ map row_key data = list_prod months products
          /\ List.length data = (List.length months * 15)%nat
          /\ (NoDup months -> NoDup (map row_key data)))
  /\ (forall g,
        exists data,
          script g = Some (Returned (data, csv_text data))
          /\ map row_key data = list_prod months_2022_2024 products
          /\ List.length data = 540%nat
          /\ NoDup (map row_key data)).
Proof.
  split; [exact products_eq |]. split.
  - intros months g.
    destruct (generate_data_spec months g) as (data & g' & Hrun & Hkeys & _).
    exists data, g'. split; [exact Hrun |]. split; [exact Hkeys |].
    split; [apply length_keys; exact Hkeys |].
    intros Hnd. rewrite Hkeys.
    apply NoDup_list_prod; [exact Hnd | exact NoDup_products].
  - intros g. destruct (script_data g) as (data & g' & _ & Hrun & Hkeys & _).
    exists data. split; [exact Hrun |]. split; [exact Hkeys |].
    split; [rewrite (length_keys data months_2022_2024 Hkeys); reflexivity |].
    rewrite Hkeys.
    apply NoDup_list_prod;
      [exact NoDup_months_2022_2024 | exact NoDup_products].
Qed.

End Shape.

Section TwoRuns.

Lemma map_fst_row_key data : map fst (map row_key data) = map month_year data.
Proof. rewrite map_map. reflexivity. Qed.

Lemma map_snd_row_key data : map snd (map row_key data) = map product_name data.
Proof. rewrite map_map. reflexivity. Qed.

(** C9. Two runs of the script, on any two random sources and states
    (and any C libraries), produce the same number of rows and the same
    month labels and product names in the same order; and so do two runs
    of [generate_data] on any one list of months. *)
Theorem labels_independent_of_random_source
    (CL1 CL2 : CLibrary)
    (G1 G2 : Type) (RS1 : RandomSource G1) (RS2 : RandomSource G2) :
  (forall (g1 : G1) (g2 : G2),
     exists data1 data2,
       script (CL := CL1) g1 = Some (Returned (data1, csv_text data1))
       /\ script (CL := CL2) g2 = Some (Returned (data2, csv_text data2))
       /\ List.length data1 = List.length data2
       /\ map month_year data1 = map month_year data2
       /\ map product_name data1 = map product_name data2)
  /\ (forall months (g1 : G1) (g2 : G2),
        exists data1 g1' data2 g2',
          generate_data months g1 = Returned (data1, g1')
          /\ generate_data months g2 = Returned (data2, g2')
          /\ List.length data1 = List.length data2
          /\ map month_year data1 = map month_year data2
          /\ map product_name data1 = map product_name data2).
Proof.
  split.
  - intros g1 g2.
    destruct (script_data (CL := CL1) g1) as (d1 & g1' & _ & Hrun1 & Hk1 & _).
    destruct (script_data (CL := CL2) g2) as (d2 & g2' & _ & Hrun2 & Hk2 & _).
    exists d1, d2. split; [exact Hrun1 |]. split; [exact Hrun2 |].
    assert (Hk : map row_key d1 = map row_key d2) by congruence.
    split; [rewrite <- (length_map row_key d1), Hk; apply length_map |].
    rewrite <- !map_fst_row_key, <- !map_snd_row_key, Hk. auto.
  - intros months g1 g2.
    destruct (generate_data_spec months g1) as (d1 & g1' & Hrun1 & Hk1 & _).
    destruct (generate_data_spec months g2) as (d2 & g2' & Hrun2 & Hk2 & _).
    exists d1, g1', d2, g2'. split; [exact Hrun1 |]. split; [exact Hrun2 |].
    assert (Hk : map row_key d1 = map row_key d2) by congruence.
    split; [rewrite <- (length_map row_key d1), Hk; apply length_map |].
    rewrite <- !map_fst_row_key, <- !map_snd_row_key, Hk. auto.
Qed.

End TwoRuns.

Section File.

Local Open Scope string_scope.

Lemma record_text_header : record_text header = header_line.
Proof. reflexivity. Qed.

(** Close a goal that says a field of a row is left unquoted. *)
Ltac unquoted :=
  first [ assumption
        | apply needs_quotes_float_repr
        | apply needs_quotes_str_int ].

Lemma record_text_row r :
  needs_quotes (month_year r) = false ->
  needs_quotes (product_name r) = false ->
  record_text (row_cells r) = row_line r /\ no_newline (row_line r) = true.
Proof.
  intros Hm Hp.
  assert (E : record_text (row_cells r) = row_line r).
  { unfold record_text, row_cells, row_line. cbn [map cell_text join].
    rewrite !field_text_plain by unquoted. reflexivity. }
  split; [exact E |]. rewrite <- E.
  unfold record_text, row_cells. cbn [map cell_text].
  apply no_newline_join.
  rewrite !field_text_plain by unquoted.
  repeat constructor; unquoted.
Qed.

Lemma csv_text_concat data :
  csv_text data
  = String.concat EmptyString
      (map (fun r => r ++ lineterminator)
         (record_text header :: map (fun r => record_text (row_cells r)) data)).
Proof.
  unfold csv_text, writerows, writerow. rewrite map_map.
  destruct data as [| r data].
  - cbn [map String.concat]. apply append_nil_r.
  - cbn [map]. rewrite (map_map (fun r => record_text (row_cells r))).
    reflexivity.
Qed.

Lemma plain_months_2022_2024 :
  Forall (fun s => needs_quotes s = false) months_2022_2024.
Proof. repeat constructor. Qed.

Lemma plain_products : Forall (fun s => needs_quotes s = false) products.
Proof. rewrite products_eq. repeat constructor. Qed.

(** The lines of the file written from rows over plain labels. *)
Lemma lines_csv_text months data :
  Forall (fun s => needs_quotes s = false) months ->
  map row_key data = list_prod months products ->
  lines (csv_text data) = header_line :: map row_line data.
Proof.
  intros Hplain Hkeys.
  assert (Hrows : Forall (fun r =>
                    record_text (row_cells r) = row_line r
                    /\ no_newline (row_line r) = true) data).
  { apply Forall_forall. intros r Hr. apply record_text_row.
    - assert (Hin : In (row_key r) (list_prod months products))
        by (rewrite <- Hkeys; apply in_map; exact Hr).
      destruct (row_key r) as [m p] eqn:E. apply in_prod_iff in Hin.
      unfold row_key in E. injection E as <- <-.
      rewrite Forall_forall in Hplain. apply Hplain. apply Hin.
    - assert (Hin : In (row_key r) (list_prod months products))
        by (rewrite <- Hkeys; apply in_map; exact Hr).
      destruct (row_key r) as [m p] eqn:E. apply in_prod_iff in Hin.
      unfold row_key in E. injection E as <- <-.
      pose proof plain_products as Hpp. rewrite Forall_forall in Hpp.
      apply Hpp. apply Hin. }
  rewrite csv_text_concat, record_text_header.
  assert (Emap : map (fun r => record_text (row_cells r)) data
                 = map row_line data).
  { apply map_ext_in. intros r Hr. rewrite Forall_forall in Hrows.
    apply Hrows. exact Hr. }
  rewrite Emap. apply lines_records. constructor; [reflexivity |].
  apply Forall_forall. intros l Hl. apply in_map_iff in Hl.
  destruct Hl as (r & <- & Hr). rewrite Forall_forall in Hrows.
  apply Hrows. exact Hr.
Qed.

Context {CL : CLibrary} {G : Type} {RS : RandomSource G}.

Lemma script_lines g :
  exists data,
    script g = Some (Returned (data, csv_text data))
    /\ lines (csv_text data) = header_line :: map row_line data
    /\ List.length data = 540%nat.
Proof.
  destruct (script_data g) as (data & g' & _ & Hrun & Hkeys & _).
  exists data. split; [exact Hrun |]. split.
  - apply (lines_csv_text months_2022_2024);
      [exact plain_months_2022_2024 | exact Hkeys].
  - rewrite (length_keys data months_2022_2024 Hkeys). reflexivity.
Qed.

(** C8 (as amended). The first line of the file the script writes is
    the five column names joined by bare commas,
    [month/year,product name,unit price,quantity,sales amount], each data
    row follows as one line of five unquoted fields, and the file has one
    line more than [data] has rows: 541. *)
Theorem file_lines g :
  exists data text,
    script g = Some (Returned (data, text))
    /\ text = csv_text data
    /\ lines text = header_line :: map row_line data
    /\ hd_error (lines text) = Some header_line
    /\ List.length (lines text) = (1 + List.length data)%nat
    /\ List.length (lines text) = 541%nat.
Proof.
  destruct (script_lines g) as (data & Hrun & Hlines & Hlen).
  exists data, (csv_text data). split; [exact Hrun |].
  split; [reflexivity |]. split; [exact Hlines |].
  rewrite Hlines. cbn [hd_error List.length]. rewrite length_map, Hlen.
  auto.
Qed.

End File.

(** C8, the claim as stated, fails: the first line of the file holds no
    space after its commas, so it is not the header string the
    specification spells. *)
Lemma file_first_line_differs_from_spec_header :
  exists data text,
    script (RS := lcg_source) 2022
    = Some (Returned (data, text))
    /\ hd_error (lines text) = Some header_line
    /\ hd_error (lines text) <> Some spec_header_line.
Proof.
  destruct (script_lines (CL := padded_years) (RS := lcg_source) 2022)
    as (data & Hrun & Hlines & _).
  exists data, (csv_text data). split; [exact Hrun |].
  rewrite Hlines. cbn [hd_error]. split; [reflexivity | discriminate].
Qed.

(** * Further properties of the script *)

(** ** How many months, and which *)

Section Counting.

Context {CL : CLibrary}.

Lemma ltb_month_index a b :
  1 <= month a <= 12 -> 1 <= month b <= 12 ->
  (month_index a < month_index b -> ltb a b = true)
  /\ (month_index b < month_index a -> ltb a b = false).
Proof.
  intros Ha Hb. unfold ltb, cmp, fields, month_index. cbn [cmp_tuple].
  destruct (Z.compare_spec (year a) (year b)) as [Ey | Ey | Ey];
    [| split; [reflexivity | lia] | split; [lia | reflexivity]].
  destruct (Z.compare_spec (month a) (month b)) as [Em | Em | Em];
    [split; lia | split; [reflexivity | lia] | split; [lia | reflexivity]].
Qed.

Lemma month_running_range start i :
  1 <= month start <= 12 -> 1 <= month (running_date start i) <= 12.
Proof.
  intros Hm. destruct i; [exact Hm |]. unfold running_date. cbn [month].
  pose proof (Z.mod_pos_bound (month_index start + Z.of_nat (S i)) 12
                ltac:(lia)). lia.
Qed.

(** [get_months] on an [end_] no later than 9999-12-01 00:00, with the
    bound on the months it has walked. *)
Lemma get_months_returns_within start end_ :
  valid start = true -> valid end_ = true ->
  ltb last_month_start end_ = false ->
  exists n : nat,
    get_months start end_
    = Some (Returned (map (fun j => label (running_date start j)) (seq 0 n)))
    /\ (forall j, (j < n)%nat -> ltb (running_date start j) end_ = true)
    /\ ltb (running_date start n) end_ = false
    /\ month_index start + Z.of_nat n <= MAX_MONTH_INDEX.
Proof.
  intros Hv He Hlast.
  destruct (valid_fields start Hv) as [(Hy & Hm & _) _].
  destruct (get_months_run start end_ Hv) as (n & Hlt & Hres).
  exists n.
  destruct Hres as [(Hstop & Hn & Hrun) | (Hn & Hrun)]; [auto |].
  exfalso. destruct n as [| n].
  - unfold MAX_MONTH_INDEX, month_index, MAXYEAR in *. lia.
  - specialize (Hlt n ltac:(lia)).
    rewrite (last_month_not_below (running_date start n) end_) in Hlt;
      [discriminate | | assumption | | assumption].
    + apply valid_running; [assumption | lia].
    + rewrite month_index_running by assumption. lia.
Qed.

Lemma running_date_end_month start end_ :
  1 <= month start <= 12 -> 1 <= month end_ <= 12 ->
  month_index start < month_index end_ ->
  running_date start (Z.to_nat (month_index end_ - month_index start))
  = month_start_at end_ start.
Proof.
  intros Hs He Hlt.
  destruct (Z.to_nat (month_index end_ - month_index start)) as [| k] eqn:E;
    [lia |].
  unfold running_date, month_start_at. rewrite <- E.
  replace (month_index start
           + Z.of_nat (Z.to_nat (month_index end_ - month_index start)))
    with (month_index end_) by lia.
  destruct (month_index_split end_ He) as [-> ->]. reflexivity.
Qed.

(** X1. For valid [start < end_], [end_] no later than 9999-12-01 00:00,
    [get_months] returns [months_counted start end_] labels, the first of
    them the label of [start] itself: the months from [start]'s up to the
    one before [end_]'s, and [end_]'s own month too when [end_] falls
    after that month's first day at [start]'s time of day. *)
Theorem get_months_length start end_ :
  valid start = true -> valid end_ = true ->
  ltb last_month_start end_ = false ->
  ltb start end_ = true ->
  exists months,
    get_months start end_ = Some (Returned months)
    /\ Z.of_nat (List.length months) = months_counted start end_
    /\ hd_error months = Some (label start).
Proof.
  intros Hv He Hlast Hlt0.
  destruct (valid_fields start Hv) as [(_ & Hm & _) _].
  destruct (valid_fields end_ He) as [(_ & Hme & _) _].
  destruct (get_months_returns_within start end_ Hv He Hlast)
    as (n & Hrun & Hlt & Hstop & Hn).
  eexists. split; [exact Hrun |].
  rewrite length_map, length_seq.
  (* the loop passes its first test *)
  assert (Hn1 : (1 <= n)%nat).
  { destruct n; [| lia]. cbn [running_date] in Hstop. congruence. }
  split; [| destruct n; [lia | reflexivity]].
  set (D := month_index end_ - month_index start).
  (* [start < end_] puts [start]'s month at or before [end_]'s *)
  assert (HD : 0 <= D).
  { destruct (Z.lt_ge_cases (month_index end_) (month_index start)) as [H |];
      [| unfold D; lia].
    apply (proj2 (ltb_month_index start end_ Hm Hme)) in H. congruence. }
  (* every running date of an earlier month passes, none of a later one *)
  assert (Hlow : D <= Z.of_nat n).
  { destruct (Z.lt_ge_cases (Z.of_nat n) D) as [H |]; [| lia].
    pose proof (month_running_range start n Hm) as Hmn.
    pose proof (month_index_running start n Hm) as Hin.
    rewrite (proj1 (ltb_month_index (running_date start n) end_ Hmn Hme))
      in Hstop by (unfold D in *; lia).
    discriminate. }
  assert (Hhigh : Z.of_nat n <= D + 1).
  { destruct (Z.lt_ge_cases (D + 1) (Z.of_nat n)) as [H |]; [| lia].
    specialize (Hlt (Z.to_nat (D + 1)) ltac:(lia)).
    pose proof (month_running_range start (Z.to_nat (D + 1)) Hm) as Hmn.
    pose proof (month_index_running start (Z.to_nat (D + 1)) Hm) as Hin.
    rewrite (proj2 (ltb_month_index (running_date start (Z.to_nat (D + 1)))
                      end_ Hmn Hme)) in Hlt by (unfold D in *; lia).
    discriminate. }
  unfold months_counted. fold D.
  destruct (Z.eq_dec D 0) as [HD0 | HD0].
  - destruct (ltb (month_start_at end_ start) end_); lia.
  - pose proof (running_date_end_month start end_ Hm Hme
                  ltac:(unfold D in *; lia)) as Hrd.
    fold D in Hrd. rewrite <- Hrd.
    destruct (ltb (running_date start (Z.to_nat D)) end_) eqn:Eend.
    + destruct (Z.eq_dec (Z.of_nat n) D) as [E |]; [| lia].
      replace (Z.to_nat D) with n in Eend by lia. congruence.
    + destruct (Z.eq_dec (Z.of_nat n) (D + 1)) as [E |]; [| lia].
      specialize (Hlt (Z.to_nat D) ltac:(lia)). congruence.
Qed.

End Counting.

Lemma get_months_length_witness :
  let start := mkdatetime 2022 1 15 9 0 0 0 in
  let end_ := mkdatetime 2022 3 2 8 0 0 0 in
  exists months,
    get_months start end_ = Some (Returned months)
    /\ Z.of_nat (List.length months) = months_counted start end_
    /\ hd_error months = Some (label start).
Proof.
  apply (get_months_length (mkdatetime 2022 1 15 9 0 0 0)
           (mkdatetime 2022 3 2 8 0 0 0)); reflexivity.
Defined.

(** ** A later end only adds months *)

Section Extending.

Context {CL : CLibrary}.

(** X2. Moving the end later only appends labels: for valid dates with
    [end1 <= end2 <= 9999-12-01 00:00], [get_months start end2] begins
    with the whole of [get_months start end1]. *)
Theorem get_months_extends start end1 end2 :
  valid start = true -> valid end1 = true -> valid end2 = true ->
  ltb last_month_start end2 = false ->
  ltb end2 end1 = false ->
  exists months more,
    get_months start end1 = Some (Returned months)
    /\ get_months start end2 = Some (Returned (months ++ more)).
Proof.
  intros Hv H1 H2 Hlast2 Hle.
  assert (Hvl : valid last_month_start = true) by reflexivity.
  rewrite ltb_key in Hlast2, Hle by assumption.
  apply Z.ltb_ge in Hlast2, Hle.
  assert (Hlast1 : ltb last_month_start end1 = false).
  { rewrite ltb_key by assumption. apply Z.ltb_ge. lia. }
  destruct (get_months_returns_within start end1 Hv H1 Hlast1)
    as (n1 & Hrun1 & Hlt1 & _ & _).
  destruct (get_months_returns_within start end2 Hv H2
              ltac:(rewrite ltb_key by assumption; apply Z.ltb_ge; lia))
    as (n2 & Hrun2 & _ & Hstop2 & Hn2).
  assert (Hn : (n1 <= n2)%nat).
  { destruct (Nat.le_gt_cases n1 n2) as [| Hgt]; [assumption | exfalso].
    specialize (Hlt1 n2 Hgt).
    pose proof (valid_running start n2 Hv Hn2) as Hvr.
    rewrite ltb_key in Hlt1, Hstop2 by assumption.
    apply Z.ltb_lt in Hlt1. apply Z.ltb_ge in Hstop2. lia. }
  eexists. exists (map (fun j => label (running_date start j))
                     (seq n1 (n2 - n1))).
  split; [exact Hrun1 |].
  rewrite Hrun2, <- map_app.
  replace n2 with (n1 + (n2 - n1))%nat at 1 by lia.
  rewrite seq_app. reflexivity.
Qed.

End Extending.

Lemma get_months_extends_witness :
  exists months more,
    get_months start_date (at_midnight 2023 6 15)
    = Some (Returned months)
    /\ get_months start_date end_date = Some (Returned (months ++ more)).
Proof.
  apply (get_months_extends start_date (at_midnight 2023 6 15) end_date);
    reflexivity.
Defined.

(** ** No month twice *)

Section Distinct.

Context {CL : CLibrary}.

Lemma digit_char_inj a b :
  digit_char a = digit_char b -> a mod 10 = b mod 10.
Proof.
  unfold digit_char. intros E.
  pose proof (Z.mod_pos_bound a 10 ltac:(lia)).
  pose proof (Z.mod_pos_bound b 10 ltac:(lia)).
  apply (f_equal nat_of_ascii) in E.
  rewrite !nat_ascii_embedding in E by lia. lia.
Qed.

Lemma last_digit_inj a b :
  a mod 10 = b mod 10 -> a / 10 = b / 10 -> a = b.
Proof.
  intros Hm Hd. rewrite (Z.div_mod a 10), (Z.div_mod b 10) by lia.
  rewrite Hm, Hd. reflexivity.
Qed.

Lemma zero_padded_2_inj a b :
  0 <= a < 100 -> 0 <= b < 100 ->
  zero_padded 2 a = zero_padded 2 b -> a = b.
Proof.
  intros Ha Hb E. cbn [zero_padded append] in E.
  injection E as E1 E0.
  apply digit_char_inj in E1, E0.
  apply last_digit_inj; [assumption |].
  rewrite <- (Z.mod_small (a / 10) 10), <- (Z.mod_small (b / 10) 10);
    [assumption | |];
    (split; [apply Z.div_pos; lia | apply Z.div_lt_upper_bound; lia]).
Qed.

Lemma zero_padded_4_inj a b :
  0 <= a < 10000 -> 0 <= b < 10000 ->
  zero_padded 4 a = zero_padded 4 b -> a = b.
Proof.
  intros Ha Hb E. cbn [zero_padded append] in E.
  injection E as E3 E2 E1 E0.
  apply digit_char_inj in E3, E2, E1, E0.
  apply last_digit_inj; [assumption |].
  apply last_digit_inj; [assumption |].
  apply last_digit_inj; [assumption |].
  rewrite <- (Z.mod_small (a / 10 / 10 / 10) 10),
          <- (Z.mod_small (b / 10 / 10 / 10) 10); [assumption | |];
    (split; [repeat apply Z.div_pos; lia
            | repeat apply Z.div_lt_upper_bound; lia]).
Qed.

(** From year 1000 on the label tells the month and the year. *)
Lemma label_month_year a b :
  1 <= month a <= 12 -> 1 <= month b <= 12 ->
  1000 <= year a <= 9999 -> 1000 <= year b <= 9999 ->
  label a = label b -> month a = month b /\ year a = year b.
Proof.
  intros Hma Hmb Hya Hyb E. rewrite !label_eq in E.
  rewrite !format_year_4_digits in E by assumption.
  assert (Hm2 : zero_padded 2 (month a) = zero_padded 2 (month b)
                /\ zero_padded 4 (year a) = zero_padded 4 (year b)).
  { cbn [zero_padded append] in E. injection E as M1 M0 _ _ Y3 Y2 Y1 Y0.
    cbn [zero_padded append]. split; congruence. }
  destruct Hm2 as [Em Ey].
  split; [apply zero_padded_2_inj | apply zero_padded_4_inj];
    first [assumption | lia].
Qed.

Lemma NoDup_map_on {A B : Type} (f : A -> B) (l : list A) :
  NoDup l ->
  (forall x y, In x l -> In y l -> f x = f y -> x = y) ->
  NoDup (map f l).
Proof.
  induction 1 as [| a l Ha Hl IH]; intros Hinj; cbn [map]; constructor.
  - intros Hin. apply in_map_iff in Hin. destruct Hin as (y & E & Hy).
    apply Ha. rewrite (Hinj a y); [assumption | left; reflexivity
                                   | right; assumption | congruence].
  - apply IH. intros x y Hx Hy. apply Hinj; right; assumption.
Qed.

(** X3. From year 1000 on, no label occurs twice in what [get_months]
    returns: for a valid [start] of year 1000 or later and a valid
    [end_] no later than 9999-12-01 00:00 the returned list has no
    duplicates, so a label identifies its month. *)
Theorem get_months_no_duplicates start end_ :
  valid start = true -> valid end_ = true ->
  ltb last_month_start end_ = false ->
  1000 <= year start ->
  exists months,
    get_months start end_ = Some (Returned months) /\ NoDup months.
Proof.
  intros Hv He Hlast Hy.
  destruct (valid_fields start Hv) as [(_ & Hm & _) _].
  destruct (get_months_returns_within start end_ Hv He Hlast)
    as (n & Hrun & _ & _ & Hn).
  eexists. split; [exact Hrun |].
  assert (Hfields : forall i, (i < n)%nat ->
            1 <= month (running_date start i) <= 12
            /\ 1000 <= year (running_date start i) <= 9999).
  { intros i Hi.
    pose proof (valid_running start i Hv ltac:(lia)) as Hvr.
    destruct (valid_fields _ Hvr) as [(Hyr & Hmr & _) _].
    split; [assumption |]. split; [| unfold MAXYEAR in Hyr; lia].
    pose proof (month_index_running start i Hm) as Hi'.
    unfold month_index in Hi'. lia. }
  apply NoDup_map_on; [apply seq_NoDup |].
  intros i j Hi Hj E. apply in_seq in Hi, Hj.
  destruct (Hfields i ltac:(lia)) as [Hmi Hyi].
  destruct (Hfields j ltac:(lia)) as [Hmj Hyj].
  destruct (label_month_year _ _ Hmi Hmj Hyi Hyj E) as [Em Ey].
  pose proof (month_index_running start i Hm) as Ii.
  pose proof (month_index_running start j Hm) as Ij.
  unfold month_index in Ii, Ij. lia.
Qed.

End Distinct.

Lemma get_months_no_duplicates_witness :
  exists months,
    get_months start_date end_date = Some (Returned months)
    /\ NoDup months.
Proof.
  apply (get_months_no_duplicates start_date end_date);
    [reflexivity | reflexivity | reflexivity | vm_compute; discriminate].
Defined.

(** ** Amounts in cents *)

Section Cents.

Local Open Scope Q_scope.

Lemma round_ndigits_2_cents x :
  round_ndigits x 2 = round_to_double (inject_Z (cents x) / 100).
Proof. reflexivity. Qed.

(** A number less than a half away from a whole one rounds to it. *)
Lemma round_half_even_near N y :
  inject_Z N - (1 # 2) < y < inject_Z N + (1 # 2) ->
  round_half_even y = N.
Proof.
  intros [Hlo Hhi].
  pose proof (Qfloor_le y) as Hf. pose proof (Qlt_floor y) as Hf1.
  rewrite inject_Z_plus in Hf1. change (inject_Z 1) with 1 in Hf1.
  assert (Hle : (Qfloor y <= N)%Z).
  { apply Z.lt_succ_r. rewrite Zlt_Qlt. unfold Z.succ.
    rewrite inject_Z_plus. change (inject_Z 1) with 1. lra. }
  assert (Hge : (N <= Qfloor y + 1)%Z).
  { apply Z.lt_succ_r. rewrite Zlt_Qlt. unfold Z.succ.
    rewrite !inject_Z_plus. change (inject_Z 1) with 1. lra. }
  unfold round_half_even. cbv zeta.
  destruct (Z.eq_dec (Qfloor y) N) as [E | E].
  - rewrite E in *.
    destruct (Qcompare_spec (y - inject_Z N) (1 # 2)) as [C | C | C];
      [lra | reflexivity | lra].
  - assert (E' : N = (Qfloor y + 1)%Z) by lia. subst N.
    rewrite inject_Z_plus in Hlo, Hhi. change (inject_Z 1) with 1 in Hlo, Hhi.
    destruct (Qcompare_spec (y - inject_Z (Qfloor y)) (1 # 2)) as [C | C | C];
      [lra | lra | reflexivity].
Qed.

(** Below [2^(52 - s)] a double is within [2^-s] of what was rounded. *)
Lemma round_to_double_near q s :
  (0 <= s <= 1074)%Z -> 1 <= q -> q < pow2 (52 - s) ->
  q - pow2 (- s) <= round_to_double q <= q + pow2 (- s).
Proof.
  intros Hs H1 Hq.
  set (m := Qfloor (q * pow2 s)).
  pose proof (Qfloor_le (q * pow2 s)) as Hf.
  pose proof (Qlt_floor (q * pow2 s)) as Hf1.
  fold m in Hf, Hf1. rewrite inject_Z_plus in Hf1.
  change (inject_Z 1) with 1 in Hf1.
  pose proof (pow2_pos s) as Hps. pose proof (pow2_pos (- s)) as Hpn.
  assert (Hinv : pow2 s * pow2 (- s) == 1).
  { rewrite <- pow2_add. replace (s + - s)%Z with 0%Z by lia. reflexivity. }
  assert (Hm0 : (0 < m)%Z).
  { apply Z.lt_le_trans with (2 ^ s)%Z; [apply Z.pow_pos_nonneg; lia |].
    unfold m. rewrite <- (Qfloor_Z (2 ^ s)). apply Qfloor_resp_le.
    rewrite <- pow2_inject by lia.
    rewrite <- (Qmult_1_l (pow2 s)) at 1.
    apply Qmult_le_compat_r; [exact H1 | apply Qlt_le_weak, Hps]. }
  assert (Hm1 : (m + 1 < 2 ^ 53)%Z).
  { assert (Hlt : inject_Z m < inject_Z (2 ^ 52)).
    { eapply Qle_lt_trans; [exact Hf |].
      rewrite <- pow2_inject by lia.
      replace 52%Z with (52 - s + s)%Z by lia. rewrite pow2_add.
      apply Qmult_lt_compat_r; assumption. }
    rewrite <- Zlt_Qlt in Hlt.
    change (2 ^ 53)%Z with (2 * 2 ^ 52)%Z. lia. }
  assert (Hlo : inject_Z m * pow2 (- s) <= q).
  { apply Qle_trans with (q * pow2 s * pow2 (- s)).
    - apply Qmult_le_compat_r; [exact Hf | apply Qlt_le_weak, Hpn].
    - rewrite <- Qmult_assoc, Hinv, Qmult_1_r. apply Qle_refl. }
  assert (Hhi : q <= inject_Z (m + 1) * pow2 (- s)).
  { apply Qle_trans with (q * pow2 s * pow2 (- s)).
    - rewrite <- Qmult_assoc, Hinv, Qmult_1_r. apply Qle_refl.
    - apply Qmult_le_compat_r; [| apply Qlt_le_weak, Hpn].
      rewrite inject_Z_plus. apply Qlt_le_weak. exact Hf1. }
  assert (Hq0 : 0 < q) by lra.
  pose proof (round_to_double_ge q m (- s) ltac:(lia) ltac:(lia) Hlo) as Hge.
  pose proof (round_to_double_le q (m + 1) (- s) Hq0 ltac:(lia) ltac:(lia) Hhi)
    as Hle.
  rewrite inject_Z_plus in Hhi, Hle. change (inject_Z 1) with 1 in Hhi, Hle.
  set (a := inject_Z m * pow2 (- s)) in *.
  assert (Ea : (inject_Z m + 1) * pow2 (- s) == a + pow2 (- s))
    by (unfold a; ring).
  rewrite Ea in Hhi, Hle. lra.
Qed.

(** The double nearest to a two-decimal amount up to 25000.00 has that
    amount's cents. *)
Lemma cents_of_decimal N :
  (100 <= N <= 2500000)%Z ->
  cents (round_to_double (inject_Z N / 100)) = N.
Proof.
  intros HN. unfold cents. apply round_half_even_near.
  assert (H1 : inject_Z 100 <= inject_Z N) by (rewrite <- Zle_Qle; lia).
  assert (H2 : inject_Z N <= inject_Z 2500000) by (rewrite <- Zle_Qle; lia).
  change (inject_Z 100) with 100 in H1.
  change (inject_Z 2500000) with 2500000 in H2.
  pose proof (round_to_double_near (inject_Z N / 100) 30 ltac:(lia)) as Hn.
  change (pow2 (52 - 30)) with 4194304 in Hn.
  change (pow2 (Z.opp 30)) with (1 # 1073741824) in Hn.
  set (q := inject_Z N / 100) in *.
  assert (Eq : q * 100 == inject_Z N) by (unfold q; field).
  assert (Hq : 1 <= q /\ q < 4194304) by (split; lra).
  specialize (Hn (proj1 Hq) (proj2 Hq)). lra.
Qed.

(** The cents of a drawn row: the price's, and the amount's as their
    exact product with the quantity. *)
Lemma drawn_row_cents r :
  drawn_row r ->
  (500 <= cents (unit_price r) <= 5000)%Z
  /\ unit_price r = round_to_double (inject_Z (cents (unit_price r)) / 100)
  /\ cents (sales_amount r) = (cents (unit_price r) * quantity r)%Z
  /\ sales_amount r
     = round_to_double (inject_Z (cents (sales_amount r)) / 100).
Proof.
  intros Hr.
  destruct (drawn_row_ranges r Hr) as ((_ & n & Hn & Hup) & Hq & _).
  destruct Hr as (_ & _ & Hs).
  assert (Hc : cents (unit_price r) = n)
    by (rewrite Hup; apply cents_of_decimal; lia).
  rewrite Hc. split; [exact Hn |]. split; [exact Hup |].
  (* the price is within 2^-40 of n/100 *)
  assert (H1 : inject_Z 500 <= inject_Z n) by (rewrite <- Zle_Qle; lia).
  assert (H2 : inject_Z n <= inject_Z 5000) by (rewrite <- Zle_Qle; lia).
  change (inject_Z 500) with 500 in H1. change (inject_Z 5000) with 5000 in H2.
  assert (H3 : inject_Z 50 <= inject_Z (quantity r))
    by (rewrite <- Zle_Qle; lia).
  assert (H4 : inject_Z (quantity r) <= inject_Z 500)
    by (rewrite <- Zle_Qle; lia).
  change (inject_Z 50) with 50 in H3. change (inject_Z 500) with 500 in H4.
  pose proof (round_to_double_near (inject_Z n / 100) 40 ltac:(lia)) as Hp.
  change (pow2 (52 - 40)) with 4096 in Hp.
  change (pow2 (Z.opp 40)) with (1 # 1099511627776) in Hp.
  rewrite <- Hup in Hp.
  set (p := inject_Z n / 100) in *.
  assert (Ep : p * 100 == inject_Z n) by (unfold p; field).
  specialize (Hp ltac:(lra) ltac:(lra)).
  (* the product before rounding *)
  set (c := inject_Z (quantity r)) in *.
  set (y := unit_price r * of_int (quantity r)).
  assert (Ey : y == unit_price r * c).
  { unfold y, c. rewrite (of_int_between (quantity r)) by lia. reflexivity. }
  assert (Hd1 : (unit_price r - p) * c <= (1 # 1099511627776) * 500).
  { apply Qle_trans with ((1 # 1099511627776) * c).
    - apply Qmult_le_compat_r; lra.
    - apply Qmult_le_l; [reflexivity | exact H4]. }
  assert (Hd2 : (p - unit_price r) * c <= (1 # 1099511627776) * 500).
  { apply Qle_trans with ((1 # 1099511627776) * c).
    - apply Qmult_le_compat_r; lra.
    - apply Qmult_le_l; [reflexivity | exact H4]. }
  assert (Hpc : 250 <= p * c /\ p * c <= 25000).
  { split.
    - apply Qle_trans with (5 * c); [lra |].
      apply Qmult_le_compat_r; lra.
    - apply Qle_trans with (50 * c); [| lra].
      apply Qmult_le_compat_r; lra. }
  (* the product after rounding *)
  pose proof (round_to_double_near y 30 ltac:(lia)) as Hz.
  change (pow2 (52 - 30)) with 4194304 in Hz.
  change (pow2 (Z.opp 30)) with (1 # 1073741824) in Hz.
  specialize (Hz ltac:(lra) ltac:(lra)).
  assert (Hcents :
            round_half_even
              (mul (unit_price r) (of_int (quantity r)) * pow10 2)
            = (n * quantity r)%Z).
  { apply round_half_even_near. change (pow10 2) with 100.
    rewrite inject_Z_mult. fold c.
    assert (Enc : inject_Z n * c == p * c * 100)
      by (rewrite <- Ep; ring).
    rewrite Enc. unfold mul. fold y. lra. }
  assert (Es : sales_amount r
               = round_to_double (inject_Z (n * quantity r) / 100)).
  { rewrite Hs. unfold round_ndigits. rewrite Hcents. reflexivity. }
  assert (Ec : cents (sales_amount r) = (n * quantity r)%Z)
    by (rewrite Es; apply cents_of_decimal; nia).
  split; [exact Ec |]. rewrite Ec. exact Es.
Qed.

End Cents.

Section Amounts.

Context {G : Type} {RS : RandomSource G}.

(** X4. In every row of [data], for any list of months and any random
    source, the sales amount in cents is exactly the unit price in cents
    times the quantity: the two roundings to binary floating point and
    the rounding to two decimals lose nothing.  The unit price is between
    500 and 5000 cents, the sales amount between 250.00 and 25000.00. *)
Theorem sales_cents_are_price_cents_times_quantity months g :
  exists data g',
    generate_data months g = Returned (data, g')
    /\ Forall (fun r =>
                 cents (sales_amount r) = cents (unit_price r) * quantity r
                 /\ 500 <= cents (unit_price r) <= 5000
                 /\ (250 <= sales_amount r <= 25000)%Q)
         data.
Proof.
  destruct (generate_data_spec months g) as (data & g' & Hrun & _ & Hrows).
  exists data, g'. split; [exact Hrun |].
  eapply Forall_impl; [| exact Hrows]. intros r Hr.
  destruct (drawn_row_cents r Hr) as (Hn & _ & Hs & _).
  destruct (drawn_row_ranges r Hr) as (_ & _ & Hrange). auto.
Qed.

(** X5. Both amounts of every row are stored as the doubles nearest to
    their value in whole cents, so rounding them to two decimals once
    more changes nothing: [round(unit_price, 2) == unit_price] and
    [round(sales, 2) == sales]. *)
Theorem stored_amounts_are_fixed_by_rounding months g :
  exists data g',
    generate_data months g = Returned (data, g')
    /\ Forall (fun r =>
                 unit_price r
                 = round_to_double (inject_Z (cents (unit_price r)) / 100)
                 /\ sales_amount r
                    = round_to_double
                        (inject_Z (cents (sales_amount r)) / 100)
                 /\ round_ndigits (unit_price r) 2 = unit_price r
                 /\ round_ndigits (sales_amount r) 2 = sales_amount r)
         data.
Proof.
  destruct (generate_data_spec months g) as (data & g' & Hrun & _ & Hrows).
  exists data, g'. split; [exact Hrun |].
  eapply Forall_impl; [| exact Hrows]. intros r Hr.
  destruct (drawn_row_cents r Hr) as (_ & Hup & _ & Hs).
  rewrite !round_ndigits_2_cents. split; [exact Hup |].
  split; [exact Hs |]. split; symmetry; assumption.
Qed.

End Amounts.

(** ** Reading the file back *)

Section ReadingBack.

Local Open Scope string_scope.

Lemma split_from_plain f :
  needs_quotes f = false ->
  forall current rest,
    split_from comma current (f ++ rest)
    = split_from comma (current ++ f) rest.
Proof.
  induction f as [| c f IH]; intros H current rest.
  - rewrite append_nil_r. reflexivity.
  - cbn [needs_quotes] in H. apply orb_false_iff in H. destruct H as [Hc Hf].
    unfold special in Hc. rewrite !orb_false_iff in Hc.
    destruct Hc as [[[Hcomma _] _] _].
    cbn [append split_from]. rewrite Hcomma, (IH Hf), append_assoc.
    reflexivity.
Qed.

(** Fields without a special character come back from their record. *)
Lemma split_from_join fields :
  Forall (fun f => needs_quotes f = false) fields ->
  forall f current,
    needs_quotes f = false ->
    split_from comma current (join comma (f :: fields))
    = (current ++ f) :: fields.
Proof.
  induction 1 as [| f' fields Hf' Hfs IH]; intros f current Hf.
  - cbn [join]. rewrite <- (append_nil_r f) at 1.
    rewrite (split_from_plain f Hf). reflexivity.
  - change (join comma (f :: f' :: fields))
      with (f ++ String comma (join comma (f' :: fields))).
    rewrite (split_from_plain f Hf). cbn [split_from].
    rewrite Ascii.eqb_refl, (IH f' EmptyString Hf'). reflexivity.
Qed.

Lemma split_row_line r :
  needs_quotes (month_year r) = false ->
  needs_quotes (product_name r) = false ->
  str_split comma (row_line r) = map cell_text (row_cells r).
Proof.
  intros Hm Hp.
  change (row_line r) with (join comma (map cell_text (row_cells r))).
  unfold str_split, row_cells. cbn [map cell_text].
  rewrite split_from_join; [reflexivity | | exact Hm].
  repeat constructor;
    first [assumption | apply needs_quotes_float_repr
          | apply needs_quotes_str_int].
Qed.

Lemma read_decimal_str_int n : read_decimal (str_int n) = Some n.
Proof.
  unfold read_decimal, str_int.
  rewrite NilZero.isi.
  - cbn [option_map]. rewrite DecimalZ.of_to. reflexivity.
  - destruct n as [| p | p]; cbn [Z.to_int]; try discriminate.
    intros E. injection E as E.
    exact (DecimalPos.Unsigned.to_uint_nonnil p E).
  - destruct n as [| p | p]; cbn [Z.to_int]; try discriminate.
    intros E. injection E as E.
    exact (DecimalPos.Unsigned.to_uint_nonnil p E).
Qed.

(** The rows over plain months have plain labels. *)
Lemma rows_plain months data :
  Forall (fun s => needs_quotes s = false) months ->
  map row_key data = list_prod months products ->
  Forall (fun r => needs_quotes (month_year r) = false
                   /\ needs_quotes (product_name r) = false) data.
Proof.
  intros Hplain Hkeys. apply Forall_forall. intros r Hr.
  assert (Hin : In (row_key r) (list_prod months products))
    by (rewrite <- Hkeys; apply in_map; exact Hr).
  unfold row_key in Hin. apply in_prod_iff in Hin. destruct Hin as [Hm Hp].
  rewrite Forall_forall in Hplain.
  pose proof plain_products as Hpp. rewrite Forall_forall in Hpp. auto.
Qed.

Context {G : Type} {RS : RandomSource G}.

(** X6. The file reads back without a CSV parser: for months whose
    labels hold no comma, quote or line break, cutting every line of the
    written text at its commas gives back the cells as they were
    written, the five column names first, then for each row its two
    labels, the [repr] of its unit price, the [str] of its quantity and
    the [repr] of its sales amount; and the quantity field, read as a
    decimal, is the quantity. *)
Theorem file_splits_into_cells months g :
  Forall (fun s => needs_quotes s = false) months ->
  exists data g',
    generate_data months g = Returned (data, g')
    /\ map (str_split comma) (lines (csv_text data))
       = map cell_text header
         :: map (fun r => map cell_text (row_cells r)) data
    /\ Forall (fun r =>
                 option_map read_decimal
                   (nth_error (str_split comma (row_line r)) 3)
                 = Some (Some (quantity r)))
         data.
Proof.
  intros Hplain.
  destruct (generate_data_spec months g) as (data & g' & Hrun & Hkeys & _).
  exists data, g'. split; [exact Hrun |].
  pose proof (rows_plain months data Hplain Hkeys) as Hrows.
  split.
  - rewrite (lines_csv_text months data Hplain Hkeys).
    cbn [map]. f_equal. rewrite map_map. apply map_ext_in.
    intros r Hr. rewrite Forall_forall in Hrows.
    destruct (Hrows r Hr) as [Hm Hp]. apply split_row_line; assumption.
  - eapply Forall_impl; [| exact Hrows]. intros r [Hm Hp].
    rewrite (split_row_line r Hm Hp). cbn [row_cells map nth_error cell_text].
    cbn [option_map]. rewrite read_decimal_str_int. reflexivity.
Qed.

(** X7. The written text is its lines, each followed by carriage
    return and line feed, the last one too: for months with plain labels
    the file holds one line for the header and 15 for each month, no line
    is empty or holds a line break, and putting the terminator back after
    every line gives the text again. *)
Theorem file_is_terminated_lines months g :
  Forall (fun s => needs_quotes s = false) months ->
  exists data g',
    generate_data months g = Returned (data, g')
    /\ String.concat EmptyString
         (map (fun l => l ++ lineterminator) (lines (csv_text data)))
       = csv_text data
    /\ List.length (lines (csv_text data))
       = (1 + 15 * List.length months)%nat
    /\ Forall (fun l => no_newline l = true /\ l <> EmptyString)
         (lines (csv_text data)).
Proof.
  intros Hplain.
  destruct (generate_data_spec months g) as (data & g' & Hrun & Hkeys & _).
  exists data, g'. split; [exact Hrun |].
  pose proof (rows_plain months data Hplain Hkeys) as Hrows.
  rewrite (lines_csv_text months data Hplain Hkeys).
  assert (Erec : map (fun r => record_text (row_cells r)) data
                 = map row_line data).
  { apply map_ext_in. intros r Hr. rewrite Forall_forall in Hrows.
    destruct (Hrows r Hr) as [Hm Hp].
    apply (record_text_row r Hm Hp). }
  split; [| split].
  - rewrite csv_text_concat, record_text_header, Erec. reflexivity.
  - cbn [List.length]. rewrite length_map, (length_keys data months Hkeys).
    lia.
  - constructor; [split; [reflexivity | discriminate] |].
    apply Forall_forall. intros l Hl. apply in_map_iff in Hl.
    destruct Hl as (r & <- & Hr). rewrite Forall_forall in Hrows.
    destruct (Hrows r Hr) as [Hm Hp].
    split; [apply (record_text_row r Hm Hp) |].
    unfold row_line. destruct (month_year r); discriminate.
Qed.

End ReadingBack.

Lemma file_splits_into_cells_witness :
  exists data g',
    generate_data (RS := lcg_source) months_2022_2024 2022
    = Returned (data, g')
    /\ map (str_split comma) (lines (csv_text data))
       = map cell_text header
         :: map (fun r => map cell_text (row_cells r)) data
    /\ Forall (fun r =>
                 option_map read_decimal
                   (nth_error (str_split comma (row_line r)) 3)
                 = Some (Some (quantity r)))
         data.
Proof.
  apply (file_splits_into_cells (RS := lcg_source) months_2022_2024 2022).
  repeat constructor.
Defined.

Lemma file_is_terminated_lines_witness :
  exists data g',
    generate_data (RS := lcg_source) months_2022_2024 2022
    = Returned (data, g')
    /\ String.concat EmptyString
         (map (fun l => (l ++ lineterminator)%string) (lines (csv_text data)))
       = csv_text data
    /\ List.length (lines (csv_text data))
       = (1 + 15 * List.length months_2022_2024)%nat
    /\ Forall (fun l => no_newline l = true /\ l <> EmptyString)
         (lines (csv_text data)).
Proof.
  apply (file_is_terminated_lines (RS := lcg_source) months_2022_2024 2022).
  repeat constructor.
Defined.

(** ** The generator through the loops *)

Section Draws.

Context {G : Type} {RS : RandomSource G}.

Lemma make_row_draws month product g :
  exists r,
    make_row month product g = Returned (r, two_draws g)
    /\ month_year r = month /\ product_name r = product.
Proof.
  unfold make_row, rbind, uniform, random, randint, ret, rbind, two_draws.
  destruct (genrand_res53 g) as [k g1]. cbn [snd].
  change (0 <? 500 + 1 - 50)%Z with true. cbv iota.
  change (500 + 1 - 50)%Z with 451%Z.
  destruct (randbelow 451 g1) as [j g2]. cbn [snd].
  eexists. split; [reflexivity |]. split; reflexivity.
Qed.

Lemma iter_two_draws_succ n g :
  Nat.iter n two_draws (two_draws g) = Nat.iter (S n) two_draws g.
Proof. symmetry. apply Nat.iter_succ_r. Qed.

Lemma iter_two_draws_add a b g :
  Nat.iter b two_draws (Nat.iter a two_draws g)
  = Nat.iter (a + b) two_draws g.
Proof. rewrite (Nat.add_comm a b). symmetry. apply Nat.iter_add. Qed.

(** What a loop appends does not depend on the rows already there, and
    its [i]-th new row is made from the generator after [i] rows. *)
Lemma for_products_draws month ps :
  forall g,
  exists rows,
    (forall data,
       for_products month ps data g
       = Returned ((data ++ rows)%list,
                   Nat.iter (List.length ps) two_draws g))
    /\ List.length rows = List.length ps
    /\ (forall i r,
          nth_error rows i = Some r ->
          make_row (month_year r) (product_name r) (Nat.iter i two_draws g)
          = Returned (r, Nat.iter (S i) two_draws g)).
Proof.
  induction ps as [| p ps IH]; intros g.
  - exists []. split; [| split].
    + intros data. cbn. rewrite app_nil_r. reflexivity.
    + reflexivity.
    + intros [| i] r H; discriminate.
  - destruct (make_row_draws month p g) as (r & Hr & Hm & Hp).
    destruct (IH (two_draws g)) as (rows & Hrun & Hlen & Hnth).
    exists (r :: rows). split; [| split].
    + intros data. cbn [for_products]. unfold rbind at 1. rewrite Hr.
      rewrite Hrun, <- app_assoc. cbn [app List.length].
      rewrite iter_two_draws_succ. reflexivity.
    + cbn [List.length]. rewrite Hlen. reflexivity.
    + intros [| i] r' H; cbn [nth_error] in H.
      * injection H as <-. rewrite Hm, Hp. exact Hr.
      * specialize (Hnth _ _ H). rewrite !iter_two_draws_succ in Hnth.
        exact Hnth.
Qed.

Lemma for_months_draws ms ps :
  forall g,
  exists rows,
    (forall data,
       for_months ms ps data g
       = Returned ((data ++ rows)%list,
                   Nat.iter (List.length ms * List.length ps) two_draws g))
    /\ List.length rows = (List.length ms * List.length ps)%nat
    /\ (forall i r,
          nth_error rows i = Some r ->
          make_row (month_year r) (product_name r) (Nat.iter i two_draws g)
          = Returned (r, Nat.iter (S i) two_draws g)).
Proof.
  induction ms as [| m ms IH]; intros g.
  - exists []. split; [| split].
    + intros data. cbn. rewrite app_nil_r. reflexivity.
    + reflexivity.
    + intros [| i] r H; discriminate.
  - destruct (for_products_draws m ps g) as (rows1 & Hrun1 & Hlen1 & Hnth1).
    destruct (IH (Nat.iter (List.length ps) two_draws g))
      as (rows2 & Hrun2 & Hlen2 & Hnth2).
    exists (rows1 ++ rows2)%list. split; [| split].
    + intros data. cbn [for_months]. unfold rbind at 1. rewrite Hrun1.
      rewrite Hrun2, <- app_assoc, iter_two_draws_add. reflexivity.
    + rewrite length_app, Hlen1, Hlen2. reflexivity.
    + intros i r H. destruct (Nat.lt_ge_cases i (List.length rows1)) as [Hi | Hi].
      * rewrite nth_error_app1 in H by exact Hi. apply Hnth1. exact H.
      * rewrite nth_error_app2 in H by exact Hi.
        specialize (Hnth2 _ _ H).
        rewrite !iter_two_draws_add in Hnth2.
        replace (List.length ps + (i - List.length rows1))%nat with i
          in Hnth2 by lia.
        replace (List.length ps + S (i - List.length rows1))%nat with (S i)
          in Hnth2 by lia.
        exact Hnth2.
Qed.

Lemma for_months_app ms1 ms2 ps :
  forall data g,
    for_months (ms1 ++ ms2) ps data g
    = (data' <~ for_months ms1 ps data ;; for_months ms2 ps data') g.
Proof.
  induction ms1 as [| m ms1 IH]; intros data g.
  - reflexivity.
  - cbn [app for_months]. unfold rbind.
    destruct (for_products m ps data g) as [[data1 g1] | e]; [| reflexivity].
    rewrite IH. reflexivity.
Qed.

(** X8. Rows are made two draws at a time, in the order they are
    appended: [generate_data] leaves the generator after 30 draws for
    each month, and its [i]-th row is the row its month and product make
    from the generator as [i] rows of draws have left it, the unit price
    drawn before the quantity.  No row depends on a later one. *)
Theorem generate_data_draws months g :
  exists data,
    generate_data months g
    = Returned (data, Nat.iter (15 * List.length months) two_draws g)
    /\ forall i r,
         nth_error data i = Some r ->
         make_row (month_year r) (product_name r) (Nat.iter i two_draws g)
         = Returned (r, Nat.iter (S i) two_draws g).
Proof.
  destruct (for_months_draws months products g) as (rows & Hrun & _ & Hnth).
  exists rows. split; [| exact Hnth].
  unfold generate_data. rewrite (Hrun []).
  change (List.length products) with 15%nat.
  rewrite (Nat.mul_comm 15). reflexivity.
Qed.

(** X9. A longer list of months only adds rows: the data for
    [ms1 ++ ms2] is the data for [ms1] followed by the data for [ms2]
    made from the generator as [ms1] has left it. *)
Theorem generate_data_app ms1 ms2 g :
  exists d1 g1 d2 g2,
    generate_data ms1 g = Returned (d1, g1)
    /\ generate_data ms2 g1 = Returned (d2, g2)
    /\ generate_data (ms1 ++ ms2) g = Returned ((d1 ++ d2)%list, g2).
Proof.
  destruct (for_months_draws ms1 products g) as (d1 & Hrun1 & _).
  destruct (for_months_draws ms2 products
              (Nat.iter (List.length ms1 * List.length products) two_draws g))
    as (d2 & Hrun2 & _).
  exists d1. eexists. exists d2. eexists.
  unfold generate_data.
  split; [exact (Hrun1 []) |]. split; [exact (Hrun2 []) |].
  rewrite for_months_app. unfold rbind. rewrite (Hrun1 []).
  rewrite (Hrun2 ([] ++ d1)%list). reflexivity.
Qed.

End Draws.

(** ** Any range of dates *)

Section AnyRange.

Context {CL : CLibrary} {G : Type} {RS : RandomSource G}.

(** From year 1000 on a label holds digits and slashes only. *)
Lemma needs_quotes_label d :
  1000 <= year d <= 9999 -> needs_quotes (label d) = false.
Proof.
  intros Hy. rewrite label_eq, format_year_4_digits by exact Hy.
  rewrite !needs_quotes_app, !needs_quotes_zero_padded. reflexivity.
Qed.

(** X10. The script's three steps work together for any range of dates,
    not only the one of lines 7-8: for a valid [start] of year 1000 or
    later and a valid [end_] no later than 9999-12-01 00:00,
    [get_months] returns labels that need no quoting, [generate_data]
    makes one row per label and product, and the file written from them
    has the header line and then one line per row, 15 for each month. *)
Theorem file_for_any_range start end_ g :
  valid start = true -> valid end_ = true ->
  ltb last_month_start end_ = false ->
  1000 <= year start ->
  exists months data g',
    get_months start end_ = Some (Returned months)
    /\ Forall (fun s => needs_quotes s = false) months
    /\ generate_data months g = Returned (data, g')
    /\ map row_key data = list_prod months products
    /\ lines (csv_text data) = header_line :: map row_line data
    /\ List.length (lines (csv_text data))
       = (1 + 15 * List.length months)%nat.
Proof.
  intros Hv He Hlast Hy.
  destruct (valid_fields start Hv) as [(_ & Hm & _) _].
  destruct (get_months_returns_within start end_ Hv He Hlast)
    as (n & Hrun & _ & _ & Hn).
  set (months := map (fun j => label (running_date start j)) (seq 0 n)) in *.
  assert (Hplain : Forall (fun s => needs_quotes s = false) months).
  { apply Forall_forall. intros s Hs. apply in_map_iff in Hs.
    destruct Hs as (i & <- & Hi). apply in_seq in Hi.
    pose proof (valid_running start i Hv ltac:(lia)) as Hvr.
    destruct (valid_fields _ Hvr) as [(Hyr & Hmr & _) _].
    pose proof (month_index_running start i Hm) as Hi'.
    apply needs_quotes_label. unfold month_index, MAXYEAR in *. lia. }
  destruct (generate_data_spec months g) as (data & g' & Hdata & Hkeys & _).
  exists months, data, g'. split; [exact Hrun |]. split; [exact Hplain |].
  split; [exact Hdata |]. split; [exact Hkeys |].
  pose proof (lines_csv_text months data Hplain Hkeys) as Hlines.
  split; [exact Hlines |]. rewrite Hlines. cbn [List.length].
  rewrite length_map, (length_keys data months Hkeys). lia.
Qed.

End AnyRange.

Lemma file_for_any_range_witness :
  exists months data g',
    get_months (mkdatetime 2023 11 20 14 30 0 0) (at_midnight 2024 3 1)
    = Some (Returned months)
    /\ Forall (fun s => needs_quotes s = false) months
    /\ generate_data (RS := lcg_source) months 7 = Returned (data, g')
    /\ map row_key data = list_prod months products
    /\ lines (csv_text data) = header_line :: map row_line data
    /\ List.length (lines (csv_text data))
       = (1 + 15 * List.length months)%nat.
Proof.
  apply (file_for_any_range (RS := lcg_source)
           (mkdatetime 2023 11 20 14 30 0 0) (at_midnight 2024 3 1) 7);
    [reflexivity | reflexivity | reflexivity | vm_compute; discriminate].
Defined.
